(** * elf::SharedRWBuffer (src/elf/shared_rw_buffer.h)

    A shallow embedding of the SQLite-backed record log with its
    double-buffered cache of recent records and the scoped [Sampler]
    handle, followed by the properties established about it.

    Conventions.
    - C++ integers are [Z] with the conversions written out
      ([uint64_t]: [mod 2^64]; [int]: 32 bits, two's complement).
    - Every member function is a computation in the monad [M]: it takes
      the object state and finishes normally, throws, waits on a lock, or
      runs into undefined behaviour.
    - The wall clock is an explicit argument [now_ms] (milliseconds since
      the epoch) of the functions that read it. *)

From Stdlib Require Import ZArith List String Ascii Bool Lia Sorting.Sorted Permutation.
From Stdlib Require Import Structures.OrderedTypeEx.
From stdpp Require Import base list strings sorting.

Local Open Scope string_scope.
Local Open Scope Z_scope.

(** ** Integer types *)

Definition INT_MAX : Z := 2147483647.
Definition INT_MIN : Z := -2147483648.

(** Conversion to [uint64_t]. *)
Definition to_uint64 (z : Z) : Z := z mod 2 ^ 64.

(** Conversion to [int] (32 bits, two's complement). *)
Definition to_int (z : Z) : Z := (z + 2 ^ 31) mod 2 ^ 32 - 2 ^ 31.

(** ** Decimal text: [std::to_string] and [std::stoi] *)

Definition digit_char (d : Z) : ascii := ascii_of_nat (48 + Z.to_nat d).

Fixpoint to_digits (fuel : nat) (n : Z) (acc : string) : string :=
  match fuel with
  | O => acc
  | S fuel' =>
      let acc' := String (digit_char (n mod 10)) acc in
      if n / 10 =? 0 then acc' else to_digits fuel' (n / 10) acc'
  end.

(** [std::to_string] on an unsigned value ("%lu"). *)
Definition to_string_unsigned (n : Z) : string :=
  to_digits (S (S (Z.to_nat (Z.log2 n)))) n "".

(** [std::to_string] on a signed value ("%d"). *)
Definition to_string (z : Z) : string :=
  if z <? 0 then String "-" (to_string_unsigned (- z)) else to_string_unsigned z.

Definition digit_val (c : ascii) : option Z :=
  let n := Z.of_nat (nat_of_ascii c) in
  if (48 <=? n) && (n <=? 57) then Some (n - 48) else None.

(** The characters [isspace] accepts in the "C" locale. *)
Definition isspace (c : ascii) : bool :=
  let n := nat_of_ascii c in
  Nat.eqb n 32 || (Nat.leb 9 n && Nat.leb n 13).

Fixpoint skip_space (s : string) : string :=
  match s with
  | String c s' => if isspace c then skip_space s' else s
  | EmptyString => s
  end.

(** Reads the longest prefix of decimal digits; [acc] is [None] until a
    digit has been seen.  Returns the value read and the unread rest. *)
Fixpoint scan_digits (s : string) (acc : option Z) : option Z * string :=
  match s with
  | String c s' =>
      match digit_val c with
      | Some d => scan_digits s' (Some (10 * default 0 acc + d))
      | None => (acc, s)
      end
  | EmptyString => (acc, s)
  end.

(** Optional sign, then digits. *)
Definition scan_signed (s : string) : option Z * string :=
  match s with
  | String "-" s' => let '(v, rest) := scan_digits s' None in (Z.opp <$> v, rest)
  | String "+" s' => scan_digits s' None
  | _ => scan_digits s None
  end.

(** The exceptions that reach this code. *)
Inductive exn := invalid_argument | out_of_range | range_error.

(** [std::stoi(text)]: [strtol] in base 10, leading white space skipped,
    trailing text ignored; [invalid_argument] when no digit is found,
    [out_of_range] when the value does not fit an [int]. *)
Definition stoi (text : string) : exn + Z :=
  match fst (scan_signed (skip_space text)) with
  | None => inl invalid_argument
  | Some v => if (INT_MIN <=? v) && (v <=? INT_MAX) then inr v else inl out_of_range
  end.

(** ** [std::mt19937] *)

Definition mask32 (x : Z) : Z := Z.land x 4294967295.

Record mt19937 := { mt : list Z; mti : nat }.

Fixpoint seed_fill (n : nat) (i prev : Z) : list Z :=
  match n with
  | O => []
  | S n' =>
      let x := mask32 (1812433253 * Z.lxor prev (Z.shiftr prev 30) + i) in
      x :: seed_fill n' (i + 1) x
  end.

Definition mt_seed (value : Z) : mt19937 :=
  let x0 := mask32 value in
  {| mt := x0 :: seed_fill 623 1 x0; mti := 624 |}.

Definition mt_at (l : list Z) (i : nat) : Z := default 0 (l !! i).

Definition twist_at (l : list Z) (i : nat) : list Z :=
  let y := Z.lor (Z.land (mt_at l i) 2147483648)
                 (Z.land (mt_at l ((i + 1) mod 624)%nat) 2147483647) in
  let mag := if Z.odd y then 2567483615 else 0 in
  <[i := Z.lxor (Z.lxor (mt_at l ((i + 397) mod 624)%nat) (Z.shiftr y 1)) mag]> l.

Definition twist (l : list Z) : list Z := fold_left twist_at (seq 0 624) l.

Definition temper (y0 : Z) : Z :=
  let y1 := Z.lxor y0 (Z.shiftr y0 11) in
  let y2 := Z.lxor y1 (Z.land (Z.shiftl y1 7) 2636928640) in
  let y3 := Z.lxor y2 (Z.land (Z.shiftl y2 15) 4022730752) in
  Z.lxor y3 (Z.shiftr y3 18).

(** [operator()]: the next 32-bit output and the advanced engine. *)
Definition mt_next (g : mt19937) : Z * mt19937 :=
  let g' := if (624 <=? mti g)%nat then {| mt := twist (mt g); mti := 0 |} else g in
  (temper (mt_at (mt g') (mti g')), {| mt := mt g'; mti := S (mti g') |}).


(** [discard(n)]. *)
Fixpoint mt_discard (n : nat) (g : mt19937) : mt19937 :=
  match n with
  | O => g
  | S n' => mt_discard n' (snd (mt_next g))
  end.

(** ** What the code uses of the type [float]

    [Record::pri] and [Record::reward] are C [float]s.  The code only
    converts them to and from text, so their representation [float] and
    the three conversions are taken as an interface. *)
Class FloatText (float : Type) := {
  (** The literal [0.0] of the default member initialisers. *)
  float_zero : float;
  (** [std::to_string(float)], printf's "%f". *)
  to_string_float : float -> string;
  (** [std::stof]. *)
  stof : string -> exn + float;
  (** The text SQLite hands back for a REAL column that was given this
      numeric literal; [None] when the text is not a numeric literal
      (such as the "nan" and "inf" that "%f" can print). *)
  sqlite_real_text : string -> option string;
}.

(** ** The embedded SQL engine, as far as the class drives it *)

(** One row of the table, as the seven column texts a callback sees, in
    the column order of [table_create]. *)
Record Row := mkRow {
  TIME : string;
  GAME_ID : string;
  MACHINE : string;
  SEQ : string;
  PRI : string;
  REWARD : string;
  CONTENT : string;
}.

(** An open database handle.  [table] lists the rows of the one table in
    insertion order ([None]: no such table).  [faults] is the
    environment's plan for the coming [sqlite3_exec] calls, one entry per
    call: [None] lets the call run, [Some k] makes it fail with an I/O
    error after [k] result rows have been delivered. *)
Record sqlite3 := {
  table : option (list Row);
  indexes : list string;
  faults : list (option nat);
}.

(** The fault planned for the next call, and the handle once the plan's
    entry for that call is consumed. *)
Definition next_fault (db : sqlite3) : option nat := default None (head (faults db)).

Definition pop_fault (db : sqlite3) : sqlite3 :=
  {| table := table db; indexes := indexes db; faults := tail (faults db) |}.

Definition SQLITE_OK : Z := 0.
Definition SQLITE_ERROR : Z := 1.
Definition SQLITE_ABORT : Z := 4.
Definition SQLITE_IOERR : Z := 10.
Definition SQLITE_CONSTRAINT : Z := 19.

(** The five statements the class issues.  The string arguments are the
    texts the code splices into the statement, in statement order. *)
Inductive sql :=
  (** [SELECT 1 FROM t LIMIT 1;] *)
  | SELECT_1_LIMIT_1
  (** [CREATE TABLE t (TIME CHAR(20) PRIMARY KEY NOT NULL, ...);] *)
  | CREATE_TABLE
  (** [CREATE INDEX name ON t(col);] *)
  | CREATE_INDEX (name col : string)
  (** [INSERT INTO t VALUES ("time", game_id, "machine", seq, pri,
      reward, "content");] *)
  | INSERT_VALUES (time game_id machine seq pri reward content : string)
  (** [SELECT * FROM t ORDER BY TIME DESC LIMIT limit;] *)
  | SELECT_RECENT (limit : string).

Definition is_nul (c : ascii) : bool := Nat.eqb (nat_of_ascii c) 0.
Definition is_dquote (c : ascii) : bool := Nat.eqb (nat_of_ascii c) 34.

(** The value of a double-quoted literal whose body is [body]: a doubled
    quote stands for one quote.  [None] when the body holds a lone quote or
    a NUL, which ends the literal (or the statement) early.  The text that
    reaches SQLite is then another statement, or several, which this
    model does not follow: [sql_step] answers with an error, SQLite may
    run what the text says.  Properties that depend on the answer are
    stated for bodies without quote and NUL. *)
Fixpoint dq_literal (body : string) : option string :=
  match body with
  | EmptyString => Some EmptyString
  | String c rest =>
      if is_nul c then None
      else if is_dquote c then
        match rest with
        | String c' rest' =>
            if is_dquote c' then String c <$> dq_literal rest' else None
        | EmptyString => None
        end
      else String c <$> dq_literal rest
  end.

(** A bare integer literal, optionally signed. *)
Definition sql_integer (lit : string) : option Z :=
  match scan_signed lit with
  | (Some v, EmptyString) => Some v
  | _ => None
  end.

(** [ORDER BY TIME DESC]: TIME is declared [CHAR(20)] and written as a
    quoted literal, so its values are texts and compare byte by byte. *)
Definition time_geb (a b : Row) : bool := String.leb (TIME b) (TIME a).

Fixpoint insert_desc (r : Row) (l : list Row) : list Row :=
  match l with
  | [] => [r]
  | x :: l' => if time_geb x r then x :: insert_desc r l' else r :: l
  end.

Definition order_by_time_desc (rows : list Row) : list Row :=
  fold_right insert_desc [] rows.

(** [LIMIT n]: a negative [n] means no limit. *)
Definition limit_rows (n : Z) (rows : list Row) : list Row :=
  if n <? 0 then rows else take (Z.to_nat n) rows.

(** ** Locks *)

Definition tid := nat.

(** Modelled from the spec: the reader/writer lock [RWLock] of
    primitive.h, which is not part of the sources.  Any number of shared
    holders; one exclusive holder, and only while there is no shared
    holder.  An operation that has to wait, or that releases a hold that
    does not exist, yields [None]. *)
Record RWLock := { readers : nat; writer : bool }.

Definition rw_read_shared_lock (l : RWLock) : option RWLock :=
  if writer l then None else Some {| readers := S (readers l); writer := false |}.

Definition rw_read_shared_unlock (l : RWLock) : option RWLock :=
  match readers l with
  | S n => Some {| readers := n; writer := writer l |}
  | O => None
  end.

Definition rw_write_lock (l : RWLock) : option RWLock :=
  if writer l then None
  else match readers l with
       | O => Some {| readers := 0; writer := true |}
       | S _ => None
       end.

Definition rw_write_unlock (l : RWLock) : option RWLock :=
  if writer l then Some {| readers := readers l; writer := false |} else None.

(** The calls made on [rw_lock_], recorded when they are made. *)
Inductive rw_call :=
  | read_shared_lock_call
  | read_shared_unlock_call
  | write_lock_call
  | write_unlock_call.

Global Instance rw_call_eq_dec : EqDecision rw_call.
Proof. solve_decision. Defined.

(** The lock a waiting call waits on. *)
Inductive lock_id := on_rw_lock_shared | on_rw_lock_exclusive | on_alt_mutex.

(** Undefined behaviour the code can reach. *)
Inductive undefined :=
  | modulo_by_zero
  | unlock_of_lock_not_held.

(** ** The monad of member functions

    A computation takes the object state [S] and ends in one of four
    ways. *)

Inductive outcome (S A : Type) :=
  (** normal return *)
  | Ret (a : A) (s : S)
  (** an exception leaves the function *)
  | Throws (e : exn) (s : S)
  (** the calling thread waits on a lock that state [s] does not grant *)
  | Blocks (l : lock_id) (s : S)
  (** undefined behaviour *)
  | Undefined (u : undefined) (s : S).

Arguments Ret {S A} a s.
Arguments Throws {S A} e s.
Arguments Blocks {S A} l s.
Arguments Undefined {S A} u s.

Definition Mon (S A : Type) : Type := S -> outcome S A.

Definition ret {S A} (a : A) : Mon S A := fun s => Ret a s.

Definition bind {S A B} (m : Mon S A) (k : A -> Mon S B) : Mon S B :=
  fun s =>
    match m s with
    | Ret a s' => k a s'
    | Throws e s' => Throws e s'
    | Blocks l s' => Blocks l s'
    | Undefined u s' => Undefined u s'
    end.

Definition gets {S A} (f : S -> A) : Mon S A := fun s => Ret (f s) s.
Definition modify {S} (f : S -> S) : Mon S unit := fun s => Ret tt (f s).
Definition throw {S A} (e : exn) : Mon S A := fun s => Throws e s.
Definition block {S A} (l : lock_id) : Mon S A := fun s => Blocks l s.
Definition undefined_behaviour {S A} (u : undefined) : Mon S A :=
  fun s => Undefined u s.

(** The state an outcome ends in. *)
Definition final_state {S A} (o : outcome S A) : S :=
  match o with
  | Ret _ s | Throws _ s | Blocks _ s | Undefined _ s => s
  end.

Declare Scope M_scope.
Delimit Scope M_scope with M.
Notation "x <- m ;; k" := (bind m (fun x => k))
  (at level 100, m at next level, right associativity) : M_scope.
Notation "m ;;; k" := (bind m (fun _ => k))
  (at level 100, right associativity) : M_scope.

Local Open Scope M_scope.

Section WithFloat.
Context {float : Type} `{!FloatText float}.


(** The text of an INT column given the literal [lit]: integers that fit
    64 bits are kept as integers, larger ones are stored as REAL. *)
Definition int_column_text (lit : string) : option string :=
  match sql_integer lit with
  | Some v =>
      if (- 2 ^ 63 <=? v) && (v <? 2 ^ 63) then Some (to_string v)
      else sqlite_real_text lit
  | None => None
  end.

(** The row an INSERT statement stores, if the statement is accepted. *)
Definition insert_row (time game_id machine seq pri reward content : string)
  : option Row :=
  time' ← dq_literal time;
  game_id' ← int_column_text game_id;
  machine' ← dq_literal machine;
  seq' ← int_column_text seq;
  pri' ← sqlite_real_text pri;
  reward' ← sqlite_real_text reward;
  content' ← dq_literal content;
  Some (mkRow time' game_id' machine' seq' pri' reward' content').

(** What a statement does to the database: an error code with its
    message, or the result rows and the database afterwards.  The name
    [name] is taken to be one identifier, as it is for the names SQLite
    reads as one word; a name with other characters makes the text
    another statement, which this model does not follow.  As in SQLite,
    a statement that parses looks for its table before it evaluates its
    values. *)
Definition sql_step (name : string) (q : sql) (db : sqlite3)
  : (Z * string) + (list Row * sqlite3) :=
  match q with
  | SELECT_1_LIMIT_1 =>
      match table db with
      | Some rows => inr (limit_rows 1 rows, db)
      | None => inl (SQLITE_ERROR, "no such table: " +:+ name)
      end
  | CREATE_TABLE =>
      match table db with
      | Some _ => inl (SQLITE_ERROR, "table " +:+ name +:+ " already exists")
      | None => inr ([], {| table := Some []; indexes := indexes db; faults := faults db |})
      end
  | CREATE_INDEX idx col =>
      match table db with
      | Some _ =>
          if bool_decide (idx ∈ indexes db)
          then inl (SQLITE_ERROR, "index " +:+ idx +:+ " already exists")
          else inr ([], {| table := table db; indexes := idx :: indexes db; faults := faults db |})
      | None => inl (SQLITE_ERROR, "no such table: main." +:+ name)
      end
  | INSERT_VALUES time game_id machine seq pri reward content =>
      match table db with
      | Some rows =>
          match insert_row time game_id machine seq pri reward content with
          | Some row =>
              if bool_decide (TIME row ∈ map TIME rows)
              then inl (SQLITE_CONSTRAINT, "UNIQUE constraint failed: " +:+ name +:+ ".TIME")
              else inr ([], {| table := Some (rows ++ [row])%list; indexes := indexes db; faults := faults db |})
          | None => inl (SQLITE_ERROR, "syntax error")
          end
      | None => inl (SQLITE_ERROR, "no such table: " +:+ name)
      end
  | SELECT_RECENT limit =>
      match table db, sql_integer limit with
      | Some rows, Some n => inr (limit_rows n (order_by_time_desc rows), db)
      | Some _, None => inl (SQLITE_ERROR, "syntax error")
      | None, _ => inl (SQLITE_ERROR, "no such table: " +:+ name)
      end
  end.

(** ** The class state *)

Record Record_ := mkRecord {
  timestamp : Z;   (* uint64_t *)
  game_id : Z;     (* uint64_t *)
  seq : Z;         (* int *)
  pri : float;
  reward : float;
  machine : string;
  content : string;
}.

(** A default-constructed [Record]. *)
Definition Record_default : Record_ :=
  mkRecord 0 0 0 float_zero float_zero "" "".

(** The data members of [SharedRWBuffer].  [rw_calls] is not a member: it
    is the history of the calls made on [rw_lock_], oldest first, with the
    calling thread.  [verbose_] only switches console output, which is not
    part of the state. *)
Record SharedRWBuffer := {
  db_ : sqlite3;
  table_name_ : string;
  last_err_ : string;
  curr_idx_ : Z;
  recent_loaded_ : list (list Record_);
  rw_lock_ : RWLock;
  alt_mutex_ : bool;
  verbose_ : bool;
  rw_calls : list (tid * rw_call);
}.

Definition set_db_ (db : sqlite3) (s : SharedRWBuffer) : SharedRWBuffer :=
  {| db_ := db; table_name_ := table_name_ s; last_err_ := last_err_ s;
     curr_idx_ := curr_idx_ s; recent_loaded_ := recent_loaded_ s;
     rw_lock_ := rw_lock_ s; alt_mutex_ := alt_mutex_ s; verbose_ := verbose_ s;
     rw_calls := rw_calls s |}.

Definition set_last_err_ (e : string) (s : SharedRWBuffer) : SharedRWBuffer :=
  {| db_ := db_ s; table_name_ := table_name_ s; last_err_ := e;
     curr_idx_ := curr_idx_ s; recent_loaded_ := recent_loaded_ s;
     rw_lock_ := rw_lock_ s; alt_mutex_ := alt_mutex_ s; verbose_ := verbose_ s;
     rw_calls := rw_calls s |}.

Definition set_curr_idx_ (i : Z) (s : SharedRWBuffer) : SharedRWBuffer :=
  {| db_ := db_ s; table_name_ := table_name_ s; last_err_ := last_err_ s;
     curr_idx_ := i; recent_loaded_ := recent_loaded_ s;
     rw_lock_ := rw_lock_ s; alt_mutex_ := alt_mutex_ s; verbose_ := verbose_ s;
     rw_calls := rw_calls s |}.

Definition set_recent_loaded_ (b : list (list Record_)) (s : SharedRWBuffer)
  : SharedRWBuffer :=
  {| db_ := db_ s; table_name_ := table_name_ s; last_err_ := last_err_ s;
     curr_idx_ := curr_idx_ s; recent_loaded_ := b;
     rw_lock_ := rw_lock_ s; alt_mutex_ := alt_mutex_ s; verbose_ := verbose_ s;
     rw_calls := rw_calls s |}.

Definition set_rw_lock_ (l : RWLock) (s : SharedRWBuffer) : SharedRWBuffer :=
  {| db_ := db_ s; table_name_ := table_name_ s; last_err_ := last_err_ s;
     curr_idx_ := curr_idx_ s; recent_loaded_ := recent_loaded_ s;
     rw_lock_ := l; alt_mutex_ := alt_mutex_ s; verbose_ := verbose_ s;
     rw_calls := rw_calls s |}.

Definition set_alt_mutex_ (b : bool) (s : SharedRWBuffer) : SharedRWBuffer :=
  {| db_ := db_ s; table_name_ := table_name_ s; last_err_ := last_err_ s;
     curr_idx_ := curr_idx_ s; recent_loaded_ := recent_loaded_ s;
     rw_lock_ := rw_lock_ s; alt_mutex_ := b; verbose_ := verbose_ s;
     rw_calls := rw_calls s |}.

Definition record_call (t : tid) (c : rw_call) (s : SharedRWBuffer)
  : SharedRWBuffer :=
  {| db_ := db_ s; table_name_ := table_name_ s; last_err_ := last_err_ s;
     curr_idx_ := curr_idx_ s; recent_loaded_ := recent_loaded_ s;
     rw_lock_ := rw_lock_ s; alt_mutex_ := alt_mutex_ s; verbose_ := verbose_ s;
     rw_calls := (rw_calls s ++ [(t, c)])%list |}.

(** Member functions run in the monad over the class state. *)
Local Abbreviation M := (Mon SharedRWBuffer).

(** ** Calls on the locks *)

Definition read_shared_lock (t : tid) : M unit :=
  modify (record_call t read_shared_lock_call);;;
  l <- gets rw_lock_;;
  match rw_read_shared_lock l with
  | Some l' => modify (set_rw_lock_ l')
  | None => block on_rw_lock_shared
  end.

Definition read_shared_unlock (t : tid) : M unit :=
  modify (record_call t read_shared_unlock_call);;;
  l <- gets rw_lock_;;
  match rw_read_shared_unlock l with
  | Some l' => modify (set_rw_lock_ l')
  | None => undefined_behaviour unlock_of_lock_not_held
  end.

Definition write_lock (t : tid) : M unit :=
  modify (record_call t write_lock_call);;;
  l <- gets rw_lock_;;
  match rw_write_lock l with
  | Some l' => modify (set_rw_lock_ l')
  | None => block on_rw_lock_exclusive
  end.

Definition write_unlock (t : tid) : M unit :=
  modify (record_call t write_unlock_call);;;
  l <- gets rw_lock_;;
  match rw_write_unlock l with
  | Some l' => modify (set_rw_lock_ l')
  | None => undefined_behaviour unlock_of_lock_not_held
  end.

(** [std::mutex::lock] and [unlock] on [alt_mutex_]. *)
Definition alt_mutex_lock : M unit :=
  locked <- gets alt_mutex_;;
  if locked then block on_alt_mutex else modify (set_alt_mutex_ true).

Definition alt_mutex_unlock : M unit :=
  locked <- gets alt_mutex_;;
  if locked then modify (set_alt_mutex_ false)
  else undefined_behaviour unlock_of_lock_not_held.

(** ** [sqlite3_exec] *)

(** Hands the rows to the callback one by one; a callback that returns
    non-zero aborts the statement.  An exception that leaves the callback
    leaves [sqlite3_exec] with it, the handle being as it was at that
    point; what the connection's own lock then does to the calls of other
    threads is not modelled. *)
Fixpoint deliver (callback : Row -> M Z) (rows : list Row) : M Z :=
  match rows with
  | [] => ret SQLITE_OK
  | row :: rows' =>
      r <- callback row;;
      if r =? 0 then deliver callback rows' else ret SQLITE_ABORT
  end.

Definition sqlite3_exec (q : sql) (callback : option (Row -> M Z))
  : M (Z * string) :=
  db <- gets db_;;
  name <- gets table_name_;;
  let fault := next_fault db in
  let db0 := pop_fault db in
  match sql_step name q db0 with
  | inl err => modify (set_db_ db0);;; ret err
  | inr (rows, db') =>
      match fault with
      | None =>
          modify (set_db_ db');;;
          rc <- match callback with
                | Some cb => deliver cb rows
                | None => ret SQLITE_OK
                end;;
          ret (rc, if rc =? 0 then "" else "query aborted")
      | Some k =>
          modify (set_db_ db0);;;
          rc <- match callback with
                | Some cb => deliver cb (take k rows)
                | None => ret SQLITE_OK
                end;;
          ret (if rc =? 0 then (SQLITE_IOERR, "disk I/O error")
               else (rc, "query aborted"))
      end
  end.

(** ** Private member functions *)

Definition exec (q : sql) (callback : option (Row -> M Z)) : M Z :=
  res <- sqlite3_exec q callback;;
  let rc := fst res in
  let zErrMsg := snd res in
  (if negb (rc =? 0) then modify (set_last_err_ zErrMsg)
   else modify (set_last_err_ ""));;;
  ret rc.

Definition table_exists : M bool :=
  rc <- exec SELECT_1_LIMIT_1 None;;
  ret (rc =? 0).

Definition table_create : M bool :=
  rc <- exec CREATE_TABLE None;;
  if negb (rc =? 0) then ret false else
  rc <- exec (CREATE_INDEX "idx_pri" "PRI") None;;
  if negb (rc =? 0) then ret false else
  rc <- exec (CREATE_INDEX "idx_reward" "REWARD") None;;
  if negb (rc =? 0) then ret false else
  ret true.

Definition table_insert (now_ms : Z) (r : Record_) : M bool :=
  let timestamp_now := to_uint64 now_ms in
  rc <- exec (INSERT_VALUES
                (to_string (if timestamp r =? 0 then timestamp_now else timestamp r))
                (to_string (game_id r))
                (machine r)
                (to_string (seq r))
                (to_string_float (pri r))
                (to_string_float (reward r))
                (content r)) None;;
  ret (rc =? 0).

Definition get_recent_load (s : SharedRWBuffer) : list Record_ :=
  default [] (recent_loaded_ s !! Z.to_nat (curr_idx_ s)).

(** [(curr_idx_ + 1) % recent_loaded_.size()], computed in [size_t]. *)
Definition alt_idx (s : SharedRWBuffer) : Z :=
  to_uint64 (curr_idx_ s + 1) mod Z.of_nat (length (recent_loaded_ s)).

Definition cb_save_start : M unit :=
  alt_mutex_lock;;;
  alt <- gets alt_idx;;
  modify (fun s => set_recent_loaded_ (<[Z.to_nat alt := []]> (recent_loaded_ s)) s).

Definition cb_save (r : Record_) : M bool :=
  alt <- gets alt_idx;;
  modify (fun s =>
    set_recent_loaded_
      (<[Z.to_nat alt := (default [] (recent_loaded_ s !! Z.to_nat alt) ++ [r])%list]>
         (recent_loaded_ s)) s);;;
  ret true.

Definition cb_save_end (t : tid) : M unit :=
  alt <- gets alt_idx;;
  write_lock t;;;
  modify (set_curr_idx_ (to_int alt));;;
  write_unlock t;;;
  alt_mutex_unlock.

(** Lifts a conversion that can throw. *)
Definition or_throw {A} (x : exn + A) : M A :=
  match x with
  | inr a => ret a
  | inl e => throw e
  end.

(** The conversions at the head of the lambda of [table_read_recent], in
    statement order; the first one that throws decides. *)
Definition read_record (column_texts : Row) : exn + Record_ :=
  match stoi (TIME column_texts) with
  | inl e => inl e
  | inr ts =>
  match stoi (GAME_ID column_texts) with
  | inl e => inl e
  | inr gid =>
  match stoi (SEQ column_texts) with
  | inl e => inl e
  | inr sq =>
  match stof (PRI column_texts) with
  | inl e => inl e
  | inr p =>
  match stof (REWARD column_texts) with
  | inl e => inl e
  | inr rw =>
      inr (mkRecord (to_uint64 ts) (to_uint64 gid) sq p rw
             (MACHINE column_texts) (CONTENT column_texts))
  end end end end end.

(** The lambda of [table_read_recent]. *)
Definition read_callback (column_texts : Row) : M Z :=
  r <- or_throw (read_record column_texts);;
  cb_save r;;;
  ret 0.

Definition table_read_recent (t : tid) (max_num_records : Z) : M bool :=
  cb_save_start;;;
  rc <- exec (SELECT_RECENT (to_string max_num_records)) (Some read_callback);;
  cb_save_end t;;;
  ret (rc =? 0).

(** ** [Sampler] *)

(** [data_] is the buffer the monad threads. *)
Record Sampler := { rng_ : mt19937 }.

(** [time(NULL)]: whole seconds. *)
Definition time_NULL (now_ms : Z) : Z := now_ms / 1000.

(** [explicit Sampler(SharedRWBuffer *data)] *)
Definition Sampler_ctor (t : tid) (now_ms : Z) : M Sampler :=
  let rng := mt_seed (time_NULL now_ms) in
  read_shared_lock t;;;
  ret {| rng_ := rng |}.

(** [Sampler(Sampler &&sampler)]; the engine is copied, the source object
    stays alive until its own destructor runs. *)
Definition Sampler_move (sampler : Sampler) : M Sampler :=
  ret {| rng_ := rng_ sampler |}.

(** [~Sampler()] *)
Definition Sampler_dtor (t : tid) (smp : Sampler) : M unit :=
  read_shared_unlock t.

(** [loaded->at(idx)], [idx] converted to [size_t]. *)
Definition vector_at (loaded : list Record_) (idx : Z) : M Record_ :=
  let i := to_uint64 idx in
  if i <? Z.of_nat (length loaded)
  then or_throw (from_option inr (inl out_of_range) (loaded !! Z.to_nat i))
  else throw out_of_range.

(** [int idx = rng_() % loaded->size();] for a non-empty [loaded]. *)
Definition draw_index (smp : Sampler) (size : Z) : Z * Sampler :=
  let '(x, rng') := mt_next (rng_ smp) in
  (to_int (x mod size), {| rng_ := rng' |}).

Definition sample (t : tid) (smp : Sampler) : M (Record_ * Sampler) :=
  loaded <- gets get_recent_load;;
  loaded <- (if bool_decide (loaded = [])
             then table_read_recent t 1000;;; gets get_recent_load
             else ret loaded);;
  let size := Z.of_nat (length loaded) in
  if size =? 0 then undefined_behaviour modulo_by_zero else
  let '(idx, smp') := draw_index smp size in
  r <- vector_at loaded idx;;
  ret (r, smp').

(** ** Public member functions *)

(** [return Sampler(this);].  With [elide] the returned object is
    constructed in place (every compiler's choice, and the rule since
    C++17); without it a temporary is constructed, moved into the result
    and destroyed. *)
Definition GetSampler (elide : bool) (t : tid) (now_ms : Z) : M Sampler :=
  if elide then Sampler_ctor t now_ms
  else
    tmp <- Sampler_ctor t now_ms;;
    result <- Sampler_move tmp;;
    Sampler_dtor t tmp;;;
    ret result.

Definition Insert (now_ms : Z) (r : Record_) : M bool := table_insert now_ms r.

Definition LastError (s : SharedRWBuffer) : string := last_err_ s.

(** The constructor: [open_rc] and [db] are what [sqlite3_open] returns
    and opens. *)
Definition SharedRWBuffer_ctor (open_rc : Z) (db : sqlite3)
    (table_name : string) (verbose : bool) : outcome SharedRWBuffer unit :=
  let s0 := {| db_ := db; table_name_ := table_name; last_err_ := "";
               curr_idx_ := 0; recent_loaded_ := [[]; []];
               rw_lock_ := {| readers := 0; writer := false |};
               alt_mutex_ := false; verbose_ := verbose; rw_calls := [] |} in
  if negb (open_rc =? 0) then Throws range_error s0
  else (e <- table_exists;;
        if negb e then table_create;;; ret tt else ret tt) s0.

End WithFloat.

Arguments Record_ : clear implicits.
Arguments SharedRWBuffer : clear implicits.


(** ** An instance of the [float] interface for evaluation

    Floats that are whole numbers of magnitude below [2^24], on which the
    three conversions are exact: "%f" prints six zero decimals, SQLite
    renders a whole REAL with one zero decimal, and [stof] reads the
    number back.  The scenarios stay within that range; beyond it (as for
    an integer literal of [2^63] or more, which SQLite hands back in
    exponent notation) the instance is not SQLite's rendering. *)
Definition whole_real_text (lit : string) : option string :=
  match scan_signed lit with
  | (Some v, _) => Some (to_string v +:+ ".0")
  | (None, _) => None
  end.

Definition whole_stof (text : string) : exn + Z :=
  match fst (scan_signed (skip_space text)) with
  | Some v => inr v
  | None => inl invalid_argument
  end.

Global Instance WholeFloat : FloatText Z :=
  {| float_zero := 0;
     to_string_float := fun z => to_string z +:+ ".000000";
     stof := whole_stof;
     sqlite_real_text := whole_real_text |}.

(** ** Notions used by the properties *)

(** Text without a double quote and without a NUL. *)
Fixpoint plain_text (s : string) : bool :=
  match s with
  | EmptyString => true
  | String c s' => negb (is_nul c) && negb (is_dquote c) && plain_text s'
  end.

(** The number a string of digits spells, continuing from [a]. *)
Fixpoint digits_value (s : string) (a : Z) : Z :=
  match s with
  | EmptyString => a
  | String c s' => digits_value s' (10 * a + default 0 (digit_val c))
  end.

Fixpoint all_digits (s : string) : bool :=
  match s with
  | EmptyString => true
  | String c s' => bool_decide (is_Some (digit_val c)) && all_digits s'
  end.

(** A row whose TIME is the decimal text of a number, [len] characters
    long. *)
Definition stamped (len : nat) (row : Row) : Prop :=
  exists ts, 0 <= ts /\ TIME row = to_string ts /\ String.length (TIME row) = len.

Section Notions.
Context {float : Type} `{!FloatText float}.
Local Abbreviation Record_ := (Record_ float).
Local Abbreviation SharedRWBuffer := (SharedRWBuffer float).
Local Abbreviation M := (Mon SharedRWBuffer).

(** The class invariant the constructor sets up: two slots, and an active
    index that names one of them. *)
Definition wf (s : SharedRWBuffer) : Prop :=
  length (recent_loaded_ s) = 2%nat /\ (curr_idx_ s = 0 \/ curr_idx_ s = 1).

(** [m] keeps [wf], however it ends. *)
Definition keeps_wf {A} (m : M A) : Prop :=
  forall s, wf s -> wf (final_state (m s)).

(** The slot a refresh fills. *)
Definition staging (s : SharedRWBuffer) : list Record_ :=
  default [] (recent_loaded_ s !! Z.to_nat (alt_idx s)).

(** The state after [rs] has been pushed, record by record. *)
Definition push_staging (rs : list Record_) (s : SharedRWBuffer) : SharedRWBuffer :=
  set_recent_loaded_
    (<[Z.to_nat (alt_idx s) := (staging s ++ rs)%list]> (recent_loaded_ s)) s.

(** The records read from [rows] up to the first row whose conversion
    throws, and that exception. *)
Fixpoint read_records (rows : list Row) : list Record_ * option exn :=
  match rows with
  | [] => ([], None)
  | row :: rows' =>
      match read_record row with
      | inl e => ([], Some e)
      | inr r => let '(rs, e) := read_records rows' in (r :: rs, e)
      end
  end.

(** The rows [SELECT * ... ORDER BY TIME DESC LIMIT n] yields. *)
Definition select_recent_rows (n : Z) (rows : list Row) : list Row :=
  limit_rows n (order_by_time_desc rows).

(** The rows the callback of a refresh is handed: all of them, or the
    first [k] when the call is planned to fail after [k] rows. *)
Definition delivered_rows (n : Z) (rows : list Row) (db : sqlite3) : list Row :=
  match next_fault db with
  | None => select_recent_rows n rows
  | Some k => take k (select_recent_rows n rows)
  end.

(** The same, read off the database handle; nothing when there is no
    table. *)
Definition refresh_rows (n : Z) (db : sqlite3) : list Row :=
  match table db with
  | Some rows => delivered_rows n rows db
  | None => []
  end.

(** The state a refresh that runs to its end leaves: the staging slot
    holds [rs] and is the active one. *)
Definition refreshed (t : tid) (rs : list Record_) (err : string)
    (s : SharedRWBuffer) : SharedRWBuffer :=
  {| db_ := pop_fault (db_ s); table_name_ := table_name_ s; last_err_ := err;
     curr_idx_ := alt_idx s;
     recent_loaded_ := <[Z.to_nat (alt_idx s) := rs]> (recent_loaded_ s);
     rw_lock_ := rw_lock_ s; alt_mutex_ := false; verbose_ := verbose_ s;
     rw_calls := ((rw_calls s ++ [(t, write_lock_call)]) ++
                  [(t, write_unlock_call)])%list |}.

(** No reader and no writer. *)
Definition rw_free (l : RWLock) : Prop := readers l = 0%nat /\ writer l = false.

(** How often [c] has been called on [rw_lock_]. *)
Definition count_call (c : rw_call) (calls : list (tid * rw_call)) : nat :=
  length (filter (fun e => e.2 = c) calls).

(** Thread [t] has more shared acquisitions than shared releases in
    [calls]. *)
Definition holds_shared (t : tid) (calls : list (tid * rw_call)) : Prop :=
  (length (filter (fun e => e = (t, read_shared_unlock_call)) calls)
   < length (filter (fun e => e = (t, read_shared_lock_call)) calls))%nat.

(** Some thread calls [write_lock] while it holds a shared hold. *)
Definition exclusive_attempt_while_shared (calls : list (tid * rw_call)) : Prop :=
  exists t pre post,
    calls = (pre ++ (t, write_lock_call) :: post)%list /\ holds_shared t pre.

(** The indices a Sampler draws when the active buffer has the sizes
    [sizes] at its successive [sample] calls. *)
Fixpoint index_sequence (smp : Sampler) (sizes : list Z) : list Z :=
  match sizes with
  | [] => []
  | size :: sizes' =>
      let '(idx, smp') := draw_index smp size in
      idx :: index_sequence smp' sizes'
  end.

(** The row [table_insert] asks the database to store. *)
Definition row_of_record (now_ms : Z) (r : Record_) : option Row :=
  insert_row
    (to_string (if timestamp r =? 0 then to_uint64 now_ms else timestamp r))
    (to_string (game_id r)) (machine r) (to_string (seq r))
    (to_string_float (pri r)) (to_string_float (reward r)) (content r).

Definition with_row (row : Row) (rows : list Row) (db : sqlite3) : sqlite3 :=
  {| table := Some (rows ++ [row])%list; indexes := indexes db;
     faults := tail (faults db) |}.

(** Whether the conversions of [read_callback] accept a row. *)
Definition converts (row : Row) : bool :=
  match read_record row with
  | inr _ => true
  | inl _ => false
  end.

(** ** The specification's sentences, as predicates on the model *)


(** Section 4.1: a refresh loads at most [n] records, they are the most
    recently appended ones, and they come newest first by timestamp. *)
Definition loads_most_recent_newest_first (t : tid) (n : Z) (s : SharedRWBuffer)
  : Prop :=
  forall rows s',
    table (db_ s) = Some rows -> table_read_recent t n s = Ret true s' ->
    Z.of_nat (length (get_recent_load s')) <= n /\
    Permutation (map inr (get_recent_load s'))
                (map read_record (take (Z.to_nat n) (rev rows))) /\
    StronglySorted (fun a b => timestamp b <= timestamp a) (get_recent_load s').



(** Section 4.5: two Samplers, constructed one after the other, do not
    draw the same indices by construction: some run of buffer sizes tells
    them apart. *)
Definition samplers_draw_differently (t1 t2 : tid) (now1 now2 : Z)
    (s : SharedRWBuffer) : Prop :=
  forall smp1 s1 smp2 s2,
    Sampler_ctor t1 now1 s = Ret smp1 s1 ->
    Sampler_ctor t2 now2 s1 = Ret smp2 s2 ->
    exists sizes, index_sequence smp1 sizes <> index_sequence smp2 sizes.

End Notions.

(** ** Scenarios *)

Definition empty_db : sqlite3 := {| table := None; indexes := []; faults := [] |}.

(** A buffer just constructed on an empty database. *)
Definition fresh : SharedRWBuffer Z :=
  final_state (SharedRWBuffer_ctor 0 empty_db "T" false).

(** A game record with the timestamp [ts]. *)
Definition episode (ts : Z) : Record_ Z :=
  @mkRecord Z ts 7 1 0 0 "host" "moves".

(** The state an operation leaves. *)
Definition after {A} (m : Mon (SharedRWBuffer Z) A) (s : SharedRWBuffer Z)
  : SharedRWBuffer Z := final_state (m s).

(** [fresh] after appending records stamped 100, 200 and 300. *)
Definition three_appended : SharedRWBuffer Z :=
  after (Insert 5 (episode 300))
    (after (Insert 5 (episode 200)) (after (Insert 5 (episode 100)) fresh)).

(** [three_appended] after a refresh with window 2. *)
Definition window_two_loaded : SharedRWBuffer Z :=
  after (table_read_recent 1%nat 2) three_appended.



(** [fresh] after appending records stamped 9 and then 10. *)
Definition nine_then_ten : SharedRWBuffer Z :=
  after (Insert 5 (episode 10)) (after (Insert 5 (episode 9)) fresh).



(** Two records without a timestamp of their own. *)
Definition unstamped_a : Record_ Z :=
  @mkRecord Z 0 7 1 0 0 "host" "opening".


(** A wall-clock reading of today's magnitude, in milliseconds. *)
Definition a_clock_reading : Z := 1700000000000.

(** Two instants of one second. *)
Definition instant_a : Z := 1500000000123.
Definition instant_b : Z := 1500000000789.

(** [fresh] with one Sampler alive, obtained by thread 1. *)
Definition fresh_sampled : SharedRWBuffer Z :=
  after (GetSampler true 1%nat instant_a) fresh.

(** [fresh] after thread 1 obtained a Sampler whose return value was
    moved: the temporary's destructor has released the shared hold. *)
Definition fresh_moved : SharedRWBuffer Z :=
  after (GetSampler false 1%nat instant_a) fresh.

(** The Sampler a constructor call at [now_ms] makes. *)
Definition sampler_at (now_ms : Z) : Sampler :=
  {| rng_ := mt_seed (time_NULL now_ms) |}.

(** The rows of [three_appended], in insertion order. *)
Definition three_rows : list Row := default [] (table (db_ three_appended)).


(** ** Texts the statements are modelled for

    The class splices [table_name_], [Record::machine] and
    [Record::content] into its statement texts as they are.  [sql_step]
    is what SQLite does with these texts when the name is one word to it
    ([table_word]) and the two texts end where the code's closing quote is
    ([plain_text]).  With other names or texts the statement that reaches
    SQLite is another one (or several), which [sql_step] does not follow;
    the properties that depend on what a statement does are stated for
    [table_word] names and [plain_text] texts. *)










(** ** Notions of the further properties *)


(** What the database holds: the rows of the table and the index names. *)
Definition stored (db : sqlite3) : option (list Row) * list string :=
  (table db, indexes db).

(** The values an [int] has once it is converted to [uint64_t]. *)
Definition int_as_uint64 (v : Z) : Prop :=
  0 <= v <= INT_MAX \/ 2 ^ 64 - 2 ^ 31 <= v < 2 ^ 64.

Section MoreNotions.
Context {float : Type} `{!FloatText float}.
Local Abbreviation Record_ := (Record_ float).
Local Abbreviation SharedRWBuffer := (SharedRWBuffer float).
Local Abbreviation M := (Mon SharedRWBuffer).
Local Open Scope M_scope.

(** [m] leaves the rows and the indexes as they are, however it ends. *)
Definition keeps_stored {A} (m : M A) : Prop :=
  forall s, stored (db_ (final_state (m s))) = stored (db_ s).

(** The numeric fields of a record that went through the [int]-valued
    conversions of [read_callback]. *)
Definition through_int (r : Record_) : Prop :=
  int_as_uint64 (timestamp r) /\ int_as_uint64 (game_id r) /\
  INT_MIN <= seq r <= INT_MAX.

(** The slot that is active in [s], as [s'] has it. *)
Definition slot_of (s s' : SharedRWBuffer) : option (list Record_) :=
  recent_loaded_ s' !! Z.to_nat (curr_idx_ s).


(** One call on the public interface, by any thread, with every Sampler
    constructed in place.  [sample] and the destructor are called on a
    Sampler that is alive, so a shared hold is outstanding.  A call that
    does not return leaves the state it had reached to the other
    threads. *)
Inductive public_call : SharedRWBuffer -> SharedRWBuffer -> Prop :=
  | call_Insert now_ms r s :
      public_call s (final_state (Insert now_ms r s))
  | call_GetSampler t now_ms s :
      public_call s (final_state (GetSampler true t now_ms s))
  | call_sample t smp s :
      (0 < readers (rw_lock_ s))%nat ->
      public_call s (final_state (sample t smp s))
  | call_Sampler_dtor t smp s :
      (0 < readers (rw_lock_ s))%nat ->
      public_call s (final_state (Sampler_dtor t smp s)).

(** A run of such calls. *)
Inductive public_run : SharedRWBuffer -> SharedRWBuffer -> Prop :=
  | run_done s : public_run s s
  | run_call s s1 s2 : public_run s s1 -> public_call s1 s2 -> public_run s s2.

End MoreNotions.

(** ** Further scenarios *)




(** [fresh] after the append of a record that is stamped by the clock. *)
Definition clock_stamped : SharedRWBuffer Z :=
  after (Insert a_clock_reading unstamped_a) fresh.

(** [window_two_loaded] with one Sampler alive, obtained by thread 2. *)
Definition window_two_sampled : SharedRWBuffer Z :=
  after (GetSampler true 2%nat instant_a) window_two_loaded.


(** * Checks of the library models *)

(** The first and the 10000th output of a default-seeded engine, as the
    C++ standard gives them. *)
Example mt19937_first_output : fst (mt_next (mt_seed 5489)) = 3499211612.
Proof. vm_compute. reflexivity. Qed.

Example mt19937_10000th_output :
  fst (mt_next (mt_discard 9999 (mt_seed 5489))) = 4123659995.
Proof. vm_compute. reflexivity. Qed.

Example to_string_examples :
  to_string 0 = "0" /\ to_string (-17) = "-17" /\
  to_string 1700000000000 = "1700000000000".
Proof. repeat split. Qed.

Example stoi_examples :
  stoi "  -12abc" = inr (-12) /\ stoi "+7" = inr 7 /\
  stoi "" = inl invalid_argument /\ stoi "x1" = inl invalid_argument /\
  stoi "2147483647" = inr 2147483647 /\ stoi "2147483648" = inl out_of_range /\
  stoi "1700000000000" = inl out_of_range.
Proof. repeat split. Qed.

(** * Lemmas *)

(** ** Integer conversions *)

Lemma to_uint64_small z : 0 <= z < 2 ^ 64 -> to_uint64 z = z.
Proof. intros Hz. unfold to_uint64. apply Z.mod_small. exact Hz. Qed.

Lemma to_int_small z : 0 <= z < 2 ^ 31 -> to_int z = z.
Proof.
  intros Hz. unfold to_int. rewrite Z.mod_small by lia. lia.
Qed.

(** ** Printing and reading decimal texts *)

Lemma digit_val_digit_char d : 0 <= d <= 9 -> digit_val (digit_char d) = Some d.
Proof.
  intros Hd.
  assert (Hc : d = 0 \/ d = 1 \/ d = 2 \/ d = 3 \/ d = 4 \/ d = 5 \/ d = 6 \/ d = 7 \/ d = 8 \/ d = 9) by lia.
  repeat (destruct Hc as [-> | Hc]; [reflexivity |]).
  subst d. reflexivity.
Qed.

Lemma to_digits_S f n acc :
  to_digits (S f) n acc =
  if n / 10 =? 0 then String (digit_char (n mod 10)) acc
  else to_digits f (n / 10) (String (digit_char (n mod 10)) acc).
Proof. reflexivity. Qed.

(** Reading what [to_digits] printed. *)
Lemma scan_digits_to_digits (f : nat) :
  forall n rest acc, 0 <= n < 2 ^ Z.of_nat f ->
    exists k, 0 <= k /\
      scan_digits (to_digits (S f) n rest) acc
      = scan_digits rest (Some (default 0 acc * 10 ^ (k + 1) + n)).
Proof.
  induction f as [| f IH]; intros n rest acc Hn.
  - assert (n = 0) by (simpl in Hn; lia). subst n.
    exists 0. split; [lia |]. cbn [to_digits]. change (0 / 10 =? 0) with true. cbv iota. cbn [scan_digits]. change (digit_val (digit_char (0 mod 10))) with (Some 0). cbv iota beta. f_equal. f_equal. change (10 ^ (0+1)) with 10. lia.
  - rewrite to_digits_S.
    assert (Hmod : 0 <= n mod 10 <= 9) by (pose proof (Z.mod_pos_bound n 10); lia).
    destruct (n / 10 =? 0) eqn:Hq.
    + apply Z.eqb_eq in Hq. exists 0. split; [lia |].
      cbn [scan_digits]. rewrite digit_val_digit_char by exact Hmod.
      f_equal. f_equal.
      pose proof (Z.div_mod n 10). lia.
    + apply Z.eqb_neq in Hq.
      assert (Hdiv : 0 <= n / 10 < 2 ^ Z.of_nat f).
      { rewrite Nat2Z.inj_succ, Z.pow_succ_r in Hn by lia.
        split; [apply Z.div_pos; lia |].
        apply Z.div_lt_upper_bound; lia. }
      destruct (IH (n / 10) (String (digit_char (n mod 10)) rest) acc Hdiv)
        as (k & Hk & Heq).
      exists (k + 1). split; [lia |].
      rewrite Heq. cbn [scan_digits]. rewrite digit_val_digit_char by exact Hmod.
      f_equal. f_equal. cbn [default from_option].
      rewrite (Z.pow_add_r 10 (k + 1) 1) by lia. change (10 ^ 1) with 10.
      unfold id. pose proof (Z.div_mod n 10). lia.
Qed.

Lemma to_digits_head f n rest :
  0 <= n -> exists d s, 0 <= d <= 9 /\ to_digits (S f) n rest = String (digit_char d) s.
Proof.
  revert n rest. induction f as [| f IH]; intros n rest Hn; rewrite to_digits_S.
  - destruct (n / 10 =? 0).
    + exists (n mod 10), rest. split; [pose proof (Z.mod_pos_bound n 10); lia | reflexivity].
    + exists (n mod 10), rest. split; [pose proof (Z.mod_pos_bound n 10); lia | reflexivity].
  - destruct (n / 10 =? 0).
    + exists (n mod 10), rest. split; [pose proof (Z.mod_pos_bound n 10); lia | reflexivity].
    + apply IH. apply Z.div_pos; lia.
Qed.

Lemma log2_fuel n : 0 <= n -> 0 <= n < 2 ^ Z.of_nat (S (Z.to_nat (Z.log2 n))).
Proof.
  intros Hn. split; [exact Hn |].
  rewrite Nat2Z.inj_succ, Z2Nat.id by apply Z.log2_nonneg.
  destruct (Z.eq_dec n 0) as [-> | Hz]; [reflexivity |].
  apply Z.log2_spec. lia.
Qed.


Lemma scan_signed_to_string z : scan_signed (to_string z) = (Some z, "").
Proof.
  unfold to_string. destruct (z <? 0) eqn:Hz.
  - apply Z.ltb_lt in Hz. cbn [scan_signed]. unfold to_string_unsigned.
    destruct (scan_digits_to_digits _ (- z) "" None (log2_fuel (- z) ltac:(lia)))
      as (k & _ & ->).
    cbn. f_equal. f_equal. lia.
  - apply Z.ltb_ge in Hz. unfold to_string_unsigned.
    destruct (to_digits_head (S (Z.to_nat (Z.log2 z))) z "" Hz) as (d & s & Hd & Hs).
    pose proof (scan_digits_to_digits _ z "" None (log2_fuel z Hz)) as (k & _ & Hscan).
    rewrite Hs in *.
    assert (Hsig : scan_signed (String (digit_char d) s)
                   = scan_digits (String (digit_char d) s) None).
    { assert (Hc : d = 0 \/ d = 1 \/ d = 2 \/ d = 3 \/ d = 4 \/ d = 5 \/ d = 6
                   \/ d = 7 \/ d = 8 \/ d = 9) by lia.
      repeat (destruct Hc as [-> | Hc]; [reflexivity |]). subst d. reflexivity. }
    rewrite Hsig, Hscan. cbn. f_equal.
Qed.

Lemma skip_space_to_string z : skip_space (to_string z) = to_string z.
Proof.
  unfold to_string. destruct (z <? 0) eqn:Hz; [reflexivity |].
  apply Z.ltb_ge in Hz. unfold to_string_unsigned.
  destruct (to_digits_head (S (Z.to_nat (Z.log2 z))) z "" Hz) as (d & s & Hd & ->).
  assert (Hc : d = 0 \/ d = 1 \/ d = 2 \/ d = 3 \/ d = 4 \/ d = 5 \/ d = 6
               \/ d = 7 \/ d = 8 \/ d = 9) by lia.
  repeat (destruct Hc as [-> | Hc]; [reflexivity |]). subst d. reflexivity.
Qed.

Lemma stoi_to_string z : INT_MIN <= z <= INT_MAX -> stoi (to_string z) = inr z.
Proof.
  intros [Hlo Hhi]. unfold stoi.
  rewrite skip_space_to_string, scan_signed_to_string. cbn [fst].
  apply Z.leb_le in Hlo, Hhi. rewrite Hlo, Hhi. reflexivity.
Qed.

Lemma stoi_to_string_out_of_range z :
  ~ INT_MIN <= z <= INT_MAX -> stoi (to_string z) = inl out_of_range.
Proof.
  intros Hz. unfold stoi.
  rewrite skip_space_to_string, scan_signed_to_string. cbn [fst].
  destruct (INT_MIN <=? z) eqn:Hlo; destruct (z <=? INT_MAX) eqn:Hhi; try reflexivity.
  apply Z.leb_le in Hlo, Hhi. lia.
Qed.

Lemma sql_integer_to_string z : sql_integer (to_string z) = Some z.
Proof. unfold sql_integer. rewrite scan_signed_to_string. reflexivity. Qed.

Lemma dq_literal_plain s : plain_text s = true -> dq_literal s = Some s.
Proof.
  induction s as [| c s IH]; [reflexivity |].
  cbn [plain_text dq_literal]. intros Hp.
  apply andb_prop in Hp as [Hp Hs]. apply andb_prop in Hp as [Hn Hq].
  apply negb_true_iff in Hn, Hq. rewrite Hn, Hq, (IH Hs). reflexivity.
Qed.

Lemma plain_text_to_digits f : forall n acc,
  0 <= n -> plain_text acc = true -> plain_text (to_digits f n acc) = true.
Proof.
  induction f as [| f IH]; intros n acc Hn Hacc; [exact Hacc |].
  rewrite to_digits_S.
  assert (Hd : plain_text (String (digit_char (n mod 10)) acc) = true).
  { assert (Hc : 0 <= n mod 10 <= 9) by (pose proof (Z.mod_pos_bound n 10); lia).
    cbn [plain_text]. rewrite Hacc.
    assert (Hc' : n mod 10 = 0 \/ n mod 10 = 1 \/ n mod 10 = 2 \/ n mod 10 = 3
                  \/ n mod 10 = 4 \/ n mod 10 = 5 \/ n mod 10 = 6 \/ n mod 10 = 7
                  \/ n mod 10 = 8 \/ n mod 10 = 9) by lia.
    repeat (destruct Hc' as [-> | Hc']; [reflexivity |]). rewrite Hc'. reflexivity. }
  destruct (n / 10 =? 0); [exact Hd |].
  apply IH; [apply Z.div_pos; lia | exact Hd].
Qed.

Lemma plain_text_to_string z : plain_text (to_string z) = true.
Proof.
  unfold to_string, to_string_unsigned. destruct (z <? 0) eqn:Hz.
  - apply Z.ltb_lt in Hz. cbn [plain_text].
    rewrite plain_text_to_digits by (reflexivity || lia). reflexivity.
  - apply Z.ltb_ge in Hz. apply plain_text_to_digits; [lia | reflexivity].
Qed.

(** ** Decimal texts of one length compare as the numbers they spell *)

Lemma digit_val_bound c d : digit_val c = Some d -> 0 <= d <= 9.
Proof.
  unfold digit_val. destruct (_ && _) eqn:Hb; [| discriminate].
  apply andb_prop in Hb as [Hlo Hhi]. apply Z.leb_le in Hlo, Hhi.
  intros Hd. injection Hd as <-. lia.
Qed.

Lemma scan_digits_all s : forall acc v,
  scan_digits s acc = (Some v, "") ->
  all_digits s = true /\ v = digits_value s (default 0 acc) /\ (s = "" -> acc = Some v).
Proof.
  induction s as [| c s IH]; intros acc v Hscan.
  - cbn in Hscan. injection Hscan as ->. cbn. auto.
  - cbn [scan_digits] in Hscan. destruct (digit_val c) as [d |] eqn:Hd;
      [| discriminate].
    destruct (IH _ _ Hscan) as (Hall & Hv & _).
    cbn [all_digits digits_value]. rewrite Hd.
    rewrite bool_decide_eq_true_2 by eauto.
    split; [exact Hall |]. split; [exact Hv | discriminate].
Qed.

Lemma digits_value_split s : forall a,
  all_digits s = true ->
  digits_value s a = a * 10 ^ Z.of_nat (String.length s) + digits_value s 0 /\
  0 <= digits_value s 0 < 10 ^ Z.of_nat (String.length s).
Proof.
  induction s as [| c s IH]; intros a Hall.
  - cbn. lia.
  - cbn [all_digits] in Hall. apply andb_prop in Hall as [Hc Hall].
    apply bool_decide_eq_true in Hc as [d Hd].
    pose proof (digit_val_bound c d Hd) as Hb.
    cbn [digits_value String.length]. rewrite Hd. cbn [default from_option id].
    unfold id.
    destruct (IH (10 * a + d) Hall) as [Ha Hr].
    destruct (IH (10 * 0 + d) Hall) as [H0 _].
    rewrite Nat2Z.inj_succ, Z.pow_succ_r by lia.
    rewrite Ha, H0. split; [lia | nia].
Qed.

Lemma ascii_compare_digits c1 c2 d1 d2 :
  digit_val c1 = Some d1 -> digit_val c2 = Some d2 ->
  Ascii.compare c1 c2 = (d1 ?= d2).
Proof.
  unfold digit_val. intros H1 H2.
  destruct (_ && _) in H1; [| discriminate]. injection H1 as <-.
  destruct (_ && _) in H2; [| discriminate]. injection H2 as <-.
  unfold Ascii.compare.
  rewrite <- (N2Z.inj_compare (N_of_ascii c1) (N_of_ascii c2)).
  unfold nat_of_ascii. rewrite !N_nat_Z.
  destruct (Z.compare_spec (Z.of_N (N_of_ascii c1)) (Z.of_N (N_of_ascii c2)));
    destruct (Z.compare_spec (Z.of_N (N_of_ascii c1) - 48)
                (Z.of_N (N_of_ascii c2) - 48)); try reflexivity; lia.
Qed.

Lemma compare_digits s1 : forall s2,
  all_digits s1 = true -> all_digits s2 = true ->
  String.length s1 = String.length s2 ->
  String.compare s1 s2 = (digits_value s1 0 ?= digits_value s2 0).
Proof.
  induction s1 as [| c1 s1 IH]; intros [| c2 s2] H1 H2 Hlen; try discriminate.
  - reflexivity.
  - cbn [all_digits] in H1, H2.
    apply andb_prop in H1 as [Hc1 H1]. apply andb_prop in H2 as [Hc2 H2].
    apply bool_decide_eq_true in Hc1 as [d1 Hd1].
    apply bool_decide_eq_true in Hc2 as [d2 Hd2].
    pose proof (digit_val_bound _ _ Hd1) as Hb1.
    pose proof (digit_val_bound _ _ Hd2) as Hb2.
    cbn [String.length] in Hlen. injection Hlen as Hlen.
    cbn [String.compare digits_value]. rewrite Hd1, Hd2.
    cbn [default from_option id]. unfold id.
    rewrite (ascii_compare_digits _ _ _ _ Hd1 Hd2).
    destruct (digits_value_split s1 (10 * 0 + d1) H1) as [-> _].
    destruct (digits_value_split s2 (10 * 0 + d2) H2) as [-> _].
    destruct (digits_value_split s1 0 H1) as [_ Hr1].
    destruct (digits_value_split s2 0 H2) as [_ Hr2].
    rewrite <- Hlen in *.
    set (p := 10 ^ Z.of_nat (String.length s1)) in *.
    specialize (IH s2 H1 H2 Hlen).
    set (v1 := digits_value s1 0) in *. set (v2 := digits_value s2 0) in *.
    clearbody p v1 v2.
    destruct (d1 ?= d2) eqn:Hcmp.
    + apply Z.compare_eq in Hcmp. subst d2. rewrite IH.
      symmetry. destruct (v1 ?= v2) eqn:Hc.
      * apply Z.compare_eq in Hc. apply Z.compare_eq_iff. nia.
      * change (v1 < v2) in Hc. apply Z.compare_lt_iff. nia.
      * change (v1 > v2) in Hc. apply Z.compare_gt_iff. nia.
    + change (d1 < d2) in Hcmp. symmetry. apply Z.compare_lt_iff. nia.
    + change (d1 > d2) in Hcmp. symmetry. apply Z.compare_gt_iff. nia.
Qed.

Lemma scan_digits_to_string n :
  0 <= n -> scan_digits (to_string n) None = (Some n, "").
Proof.
  intros Hn. unfold to_string. apply Z.ltb_ge in Hn as Hneg. rewrite Hneg.
  unfold to_string_unsigned.
  destruct (scan_digits_to_digits _ n "" None (log2_fuel n Hn)) as (k & _ & ->).
  cbn; repeat f_equal; lia.
Qed.

(** Among decimal texts of one length, the order of the texts is the order
    of the numbers. *)
Lemma leb_to_string a b :
  0 <= a -> 0 <= b ->
  String.length (to_string a) = String.length (to_string b) ->
  String.leb (to_string a) (to_string b) = true <-> a <= b.
Proof.
  intros Ha Hb Hlen.
  destruct (scan_digits_all _ _ _ (scan_digits_to_string a Ha)) as (Hda & Hva & _).
  destruct (scan_digits_all _ _ _ (scan_digits_to_string b Hb)) as (Hdb & Hvb & _).
  cbn [default from_option] in Hva, Hvb.
  unfold String.leb. rewrite (compare_digits _ _ Hda Hdb Hlen), <- Hva, <- Hvb.
  destruct (Z.compare_spec a b); split; try reflexivity; try lia; discriminate.
Qed.

(** ** Text order *)

Lemma leb_iff_eq_or_lt a b :
  String.leb a b = true <-> a = b \/ String_as_OT.lt a b.
Proof.
  unfold String.leb.
  destruct (String.compare a b) eqn:Hc; split; intros Hx; try reflexivity.
  - left. apply String.compare_eq_iff. exact Hc.
  - right. apply String_as_OT.cmp_lt. exact Hc.
  - discriminate Hx.
  - exfalso. destruct Hx as [-> | Hlt].
    + assert (He : String_as_OT.cmp b b = Eq) by (apply String_as_OT.cmp_eq; reflexivity).
      unfold String_as_OT.cmp in He. congruence.
    + apply String_as_OT.cmp_lt in Hlt. unfold String_as_OT.cmp in Hlt. congruence.
Qed.

Lemma leb_trans a b c :
  String.leb a b = true -> String.leb b c = true -> String.leb a c = true.
Proof.
  rewrite !leb_iff_eq_or_lt. intros [-> | Hab] [-> | Hbc]; auto.
  right. exact (String_as_OT.lt_trans _ _ _ Hab Hbc).
Qed.

Lemma time_geb_total a b : time_geb a b = true \/ time_geb b a = true.
Proof. unfold time_geb. apply String.leb_total. Qed.

Lemma time_geb_trans a b c :
  time_geb a b = true -> time_geb b c = true -> time_geb a c = true.
Proof. unfold time_geb. intros Hab Hbc. exact (leb_trans _ _ _ Hbc Hab). Qed.

(** ** [ORDER BY TIME DESC] sorts and keeps the rows *)

Lemma insert_desc_perm r l : Permutation (insert_desc r l) (r :: l).
Proof.
  induction l as [| x l IH]; [reflexivity |].
  cbn [insert_desc]. destruct (time_geb x r); [| reflexivity].
  rewrite IH. apply perm_swap.
Qed.

Lemma order_by_time_desc_perm rows : Permutation (order_by_time_desc rows) rows.
Proof.
  induction rows as [| r rows IH]; [reflexivity |].
  cbn [order_by_time_desc fold_right]. fold (order_by_time_desc rows).
  rewrite insert_desc_perm. constructor. exact IH.
Qed.

Lemma insert_desc_sorted r l :
  StronglySorted (fun a b => time_geb a b = true) l ->
  StronglySorted (fun a b => time_geb a b = true) (insert_desc r l).
Proof.
  induction l as [| x l IH]; intros Hs.
  - repeat constructor.
  - inversion Hs as [| ? ? Hs' Hall]; subst.
    cbn [insert_desc]. destruct (time_geb x r) eqn:Hxr.
    + constructor; [apply IH; exact Hs' |].
      apply (Permutation_Forall (symmetry (insert_desc_perm r l))).
      constructor; assumption.
    + assert (Hrx : time_geb r x = true).
      { destruct (time_geb_total x r) as [Hc | Hc]; [congruence | exact Hc]. }
      constructor; [exact Hs |].
      constructor; [exact Hrx |].
      eapply Forall_impl; [exact Hall |].
      intros y Hy. exact (time_geb_trans _ _ _ Hrx Hy).
Qed.

Lemma order_by_time_desc_sorted rows :
  StronglySorted (fun a b => time_geb a b = true) (order_by_time_desc rows).
Proof.
  induction rows as [| r rows IH]; [constructor |].
  cbn [order_by_time_desc fold_right]. fold (order_by_time_desc rows).
  apply insert_desc_sorted. exact IH.
Qed.

(** A row that [LIMIT] cuts off does not come before a row that is kept. *)
Lemma limit_keeps_largest n rows kept cut :
  kept ∈ select_recent_rows n rows ->
  cut ∈ drop (Z.to_nat n) (order_by_time_desc rows) ->
  0 <= n ->
  time_geb kept cut = true.
Proof.
  unfold select_recent_rows, limit_rows. intros Hk Hc Hn.
  destruct (n <? 0) eqn:Hneg; [apply Z.ltb_lt in Hneg; lia |].
  pose proof (order_by_time_desc_sorted rows) as Hs.
  rewrite <- (take_drop (Z.to_nat n) (order_by_time_desc rows)) in Hs.
  revert Hk Hc Hs.
  generalize (take (Z.to_nat n) (order_by_time_desc rows)) as front.
  generalize (drop (Z.to_nat n) (order_by_time_desc rows)) as back.
  intros back front Hk Hc Hs.
  induction front as [| x front IH]; [inversion Hk |].
  cbn in Hs. inversion Hs as [| ? ? Hs' Hall]; subst.
  apply elem_of_cons in Hk as [-> | Hk].
  - rewrite Forall_forall in Hall. apply Hall.
    apply elem_of_app. right. exact Hc.
  - apply IH; assumption.
Qed.

Section Properties.
Context {float : Type} `{!FloatText float}.
Local Abbreviation Record_ := (Record_ float).
Local Abbreviation SharedRWBuffer := (SharedRWBuffer float).
Local Abbreviation M := (Mon SharedRWBuffer).

Implicit Types s : SharedRWBuffer.
Implicit Types r : Record_.
Implicit Types rs : list Record_.
Implicit Types row : Row.
Implicit Types rows : list Row.
Implicit Types smp : Sampler.

Lemma wf_alt_idx s : wf s -> alt_idx s = 1 - curr_idx_ s.
Proof.
  intros [Hlen Hcur]. unfold alt_idx, to_uint64. rewrite Hlen.
  destruct Hcur as [-> | ->]; reflexivity.
Qed.

Lemma wf_alt_idx_cases s :
  wf s -> (curr_idx_ s = 0 /\ alt_idx s = 1) \/ (curr_idx_ s = 1 /\ alt_idx s = 0).
Proof.
  intros Hwf. pose proof (wf_alt_idx s Hwf) as Ha.
  destruct Hwf as [_ [Hc | Hc]]; rewrite Hc in Ha; [left | right]; split; assumption.
Qed.

Lemma wf_two_slots s :
  wf s -> exists b0 b1, recent_loaded_ s = [b0; b1].
Proof.
  intros [Hlen _]. destruct (recent_loaded_ s) as [| b0 [| b1 [| ? ?]]]; try discriminate.
  eauto.
Qed.


Lemma alt_idx_at_0 db name err (b0 b1 : list Record_) lock mtx vb calls :
  alt_idx {| db_ := db; table_name_ := name; last_err_ := err; curr_idx_ := 0;
             recent_loaded_ := [b0; b1]; rw_lock_ := lock; alt_mutex_ := mtx;
             verbose_ := vb; rw_calls := calls |} = 1.
Proof. reflexivity. Qed.

Lemma alt_idx_at_1 db name err (b0 b1 : list Record_) lock mtx vb calls :
  alt_idx {| db_ := db; table_name_ := name; last_err_ := err; curr_idx_ := 1;
             recent_loaded_ := [b0; b1]; rw_lock_ := lock; alt_mutex_ := mtx;
             verbose_ := vb; rw_calls := calls |} = 0.
Proof. reflexivity. Qed.

Ltac crunch :=
  repeat (progress
    (unfold push_staging, staging, get_recent_load, set_db_, set_last_err_,
       set_curr_idx_, set_recent_loaded_, set_rw_lock_, set_alt_mutex_,
       record_call;
     cbn [db_ table_name_ last_err_ curr_idx_ recent_loaded_ rw_lock_
          alt_mutex_ verbose_ rw_calls];
     rewrite ?alt_idx_at_0, ?alt_idx_at_1;
     change (Z.to_nat 0) with 0%nat; change (Z.to_nat 1) with 1%nat;
     cbn [lookup list_lookup insert list_insert default from_option id])).

(** Splits a well-formed state into its fields, slots and active index. *)
Ltac open_state s Hwf :=
  let Hlen := fresh "Hlen" in
  let Hcur := fresh "Hcur" in
  destruct Hwf as [Hlen Hcur];
  destruct s as [db name err cur bufs lock mtx vb calls];
  cbn [recent_loaded_ curr_idx_] in Hlen, Hcur;
  destruct bufs as [| b0 [| b1 [| ? ?]]]; try discriminate Hlen;
  clear Hlen; destruct Hcur; subst cur.

Lemma cb_save_eq r s : cb_save r s = Ret true (push_staging [r] s).
Proof. reflexivity. Qed.

Lemma push_staging_nil s : wf s -> push_staging [] s = s.
Proof.
  intros Hwf. open_state s Hwf; crunch;
    rewrite app_nil_r; reflexivity.
Qed.

Lemma push_staging_app rs1 rs2 s :
  wf s -> push_staging rs2 (push_staging rs1 s) = push_staging (rs1 ++ rs2) s.
Proof.
  intros Hwf. open_state s Hwf; crunch;
    rewrite <- app_assoc; reflexivity.
Qed.

Lemma wf_push_staging rs s : wf s -> wf (push_staging rs s).
Proof. intros Hwf. open_state s Hwf; split; crunch; auto. Qed.

Lemma get_recent_load_push_staging rs s :
  wf s -> get_recent_load (push_staging rs s) = get_recent_load s.
Proof. intros Hwf. open_state s Hwf; reflexivity. Qed.

Lemma curr_idx_push_staging rs s : curr_idx_ (push_staging rs s) = curr_idx_ s.
Proof. reflexivity. Qed.

Lemma staging_push_staging rs s :
  wf s -> staging (push_staging rs s) = (staging s ++ rs)%list.
Proof. intros Hwf. open_state s Hwf; reflexivity. Qed.

Lemma read_callback_eq row s :
  read_callback row s =
  match read_record row with
  | inl e => Throws e s
  | inr r => Ret 0 (push_staging [r] s)
  end.
Proof. unfold read_callback, bind. destruct (read_record row); reflexivity. Qed.

Lemma deliver_cons (cb : Row -> M Z) row rows s :
  deliver cb (row :: rows) s =
  match cb row s with
  | Ret r s' => if r =? 0 then deliver cb rows s' else Ret SQLITE_ABORT s'
  | Throws e s' => Throws e s'
  | Blocks l s' => Blocks l s'
  | Undefined u s' => Undefined u s'
  end.
Proof.
  cbn [deliver]. unfold bind. destruct (cb row s) as [r s' | | |]; try reflexivity.
  destruct (r =? 0); reflexivity.
Qed.

Lemma deliver_read_callback rows : forall s,
  wf s ->
  deliver read_callback rows s =
  match read_records rows with
  | (rs, None) => Ret SQLITE_OK (push_staging rs s)
  | (rs, Some e) => Throws e (push_staging rs s)
  end.
Proof.
  induction rows as [| row rows IH]; intros s Hwf.
  - cbn. rewrite push_staging_nil by exact Hwf. reflexivity.
  - rewrite deliver_cons, read_callback_eq. cbn [read_records].
    destruct (read_record row) as [e | r].
    + rewrite push_staging_nil by exact Hwf. reflexivity.
    + cbn [Z.eqb]. rewrite IH by (apply wf_push_staging; exact Hwf).
      destruct (read_records rows) as [rs [e |]];
        rewrite push_staging_app by exact Hwf; reflexivity.
Qed.


Lemma exec_eq q cb s :
  exec q cb s =
  match sqlite3_exec q cb s with
  | Ret res s' =>
      Ret (fst res) (set_last_err_ (if negb (fst res =? 0) then snd res else "") s')
  | Throws e s' => Throws e s'
  | Blocks l s' => Blocks l s'
  | Undefined u s' => Undefined u s'
  end.
Proof.
  unfold exec, bind. destruct (sqlite3_exec q cb s) as [[rc msg] s' | | |];
    try reflexivity.
  cbn [fst snd]. destruct (rc =? 0); reflexivity.
Qed.

Lemma wf_set_db_ db s : wf s -> wf (set_db_ db s).
Proof. intros Hwf. exact Hwf. Qed.

Lemma wf_set_last_err_ e s : wf s -> wf (set_last_err_ e s).
Proof. intros Hwf. exact Hwf. Qed.

(** The outcome of the SELECT of a refresh. *)
Lemma exec_select_recent n rows s :
  wf s -> table (db_ s) = Some rows ->
  exec (SELECT_RECENT (to_string n)) (Some read_callback) s =
  let s1 := set_db_ (pop_fault (db_ s)) s in
  match next_fault (db_ s) with
  | None =>
      match read_records (select_recent_rows n rows) with
      | (rs, None) => Ret SQLITE_OK (set_last_err_ "" (push_staging rs s1))
      | (rs, Some e) => Throws e (push_staging rs s1)
      end
  | Some k =>
      match read_records (take k (select_recent_rows n rows)) with
      | (rs, None) =>
          Ret SQLITE_IOERR (set_last_err_ "disk I/O error" (push_staging rs s1))
      | (rs, Some e) => Throws e (push_staging rs s1)
      end
  end.
Proof.
  intros Hwf Htab. rewrite exec_eq. unfold sqlite3_exec, bind, gets, modify.
  unfold pop_fault. cbn [sql_step table]. rewrite Htab, sql_integer_to_string.
  fold (select_recent_rows n rows).
  destruct (next_fault (db_ s)) as [k |]; cbv zeta;
    rewrite deliver_read_callback by (apply wf_set_db_; exact Hwf).
  - destruct (read_records (take k (select_recent_rows n rows))) as [rs [e |]];
      reflexivity.
  - destruct (read_records (select_recent_rows n rows)) as [rs [e |]];
      reflexivity.
Qed.

Lemma exec_select_no_table n s :
  table (db_ s) = None ->
  exec (SELECT_RECENT (to_string n)) (Some read_callback) s =
  Ret SQLITE_ERROR
    (set_last_err_ ("no such table: " +:+ table_name_ s)
       (set_db_ (pop_fault (db_ s)) s)).
Proof.
  intros Htab. rewrite exec_eq. unfold sqlite3_exec, bind, gets, modify.
  unfold pop_fault. cbn [sql_step table]. rewrite Htab. reflexivity.
Qed.


Lemma cb_save_start_eq s :
  cb_save_start s =
  if alt_mutex_ s then Blocks on_alt_mutex s
  else Ret tt (set_recent_loaded_
                 (<[Z.to_nat (alt_idx s) := []]> (recent_loaded_ s))
                 (set_alt_mutex_ true s)).
Proof.
  unfold cb_save_start, alt_mutex_lock, bind, gets, modify, block.
  destruct (alt_mutex_ s); reflexivity.
Qed.

Lemma cb_save_end_free t s :
  wf s -> rw_free (rw_lock_ s) -> alt_mutex_ s = true ->
  cb_save_end t s =
  Ret tt (set_alt_mutex_ false
            (record_call t write_unlock_call
               (set_curr_idx_ (alt_idx s) (record_call t write_lock_call s)))).
Proof.
  intros Hwf [Hr Hw] Hm.
  destruct s as [db name err cur bufs [rd wr] mtx vb calls].
  cbn in Hr, Hw, Hm. subst rd wr mtx.
  destruct Hwf as [Hlen Hcur]. cbn in Hlen, Hcur.
  destruct bufs as [| b0 [| b1 [| ? ?]]]; try discriminate Hlen.
  destruct Hcur; subst cur; reflexivity.
Qed.

Lemma cb_save_end_held t s :
  ~ rw_free (rw_lock_ s) ->
  cb_save_end t s = Blocks on_rw_lock_exclusive (record_call t write_lock_call s).
Proof.
  intros Hheld. unfold cb_save_end, write_lock, bind, gets, modify, block.
  cbn [rw_lock_ record_call]. unfold rw_write_lock.
  destruct (rw_lock_ s) as [rd wr] eqn:Hl. cbn [readers writer].
  destruct wr; [reflexivity |]. destruct rd; [| reflexivity].
  exfalso. apply Hheld. split; reflexivity.
Qed.


Lemma wf_begin_refresh s :
  wf s ->
  wf (set_recent_loaded_ (<[Z.to_nat (alt_idx s) := []]> (recent_loaded_ s))
        (set_alt_mutex_ true s)).
Proof.
  intros [Hlen Hcur]. split; [| exact Hcur].
  cbn [recent_loaded_ set_recent_loaded_]. rewrite length_insert. exact Hlen.
Qed.

Lemma table_read_recent_eq t n s :
  table_read_recent t n s =
  match cb_save_start s with
  | Ret _ s1 =>
      match exec (SELECT_RECENT (to_string n)) (Some read_callback) s1 with
      | Ret rc s2 =>
          match cb_save_end t s2 with
          | Ret _ s3 => Ret (rc =? 0) s3
          | Throws e s3 => Throws e s3
          | Blocks l s3 => Blocks l s3
          | Undefined u s3 => Undefined u s3
          end
      | Throws e s2 => Throws e s2
      | Blocks l s2 => Blocks l s2
      | Undefined u s2 => Undefined u s2
      end
  | Throws e s1 => Throws e s1
  | Blocks l s1 => Blocks l s1
  | Undefined u s1 => Undefined u s1
  end.
Proof.
  unfold table_read_recent, bind, ret.
  destruct (cb_save_start s) as [[] s1 | | |]; reflexivity.
Qed.

(** A refresh on an existing table whose delivered rows all convert, run
    while nobody holds [rw_lock_]: it returns, and reports whether the
    statement succeeded. *)
Lemma table_read_recent_completes t n rows rs s :
  wf s -> alt_mutex_ s = false -> rw_free (rw_lock_ s) ->
  table (db_ s) = Some rows ->
  read_records (delivered_rows n rows (db_ s)) = (rs, None) ->
  table_read_recent t n s =
  Ret (bool_decide (next_fault (db_ s) = None))
      (refreshed t rs (if next_fault (db_ s) is Some _ then "disk I/O error" else "") s).
Proof.
  intros Hwf Hm Hfree Htab Hrs.
  rewrite table_read_recent_eq, cb_save_start_eq, Hm.
  rewrite (exec_select_recent n rows) by (exact Htab || apply wf_begin_refresh, Hwf).
  cbv zeta. cbn [db_ set_recent_loaded_ set_alt_mutex_].
  unfold delivered_rows in Hrs.
  destruct (next_fault (db_ s)) as [k |]; rewrite Hrs.
  - rewrite cb_save_end_free.
    + rewrite bool_decide_eq_false_2 by discriminate. cbn [Z.eqb SQLITE_IOERR].
      f_equal. destruct Hfree as [Hr Hw].
      destruct (rw_lock_ s) as [rd wr] eqn:Hl. cbn in Hr, Hw. subst rd wr.
      open_state s Hwf; cbn in Hl; subst lock; reflexivity.
    + open_state s Hwf; split; cbn; auto.
    + exact Hfree.
    + reflexivity.
  - rewrite cb_save_end_free.
    + rewrite bool_decide_eq_true_2 by reflexivity. cbn [Z.eqb SQLITE_OK].
      f_equal. destruct Hfree as [Hr Hw].
      destruct (rw_lock_ s) as [rd wr] eqn:Hl. cbn in Hr, Hw. subst rd wr.
      open_state s Hwf; cbn in Hl; subst lock; reflexivity.
    + open_state s Hwf; split; cbn; auto.
    + exact Hfree.
    + reflexivity.
Qed.

Lemma table_read_recent_no_table t n s :
  wf s -> alt_mutex_ s = false -> rw_free (rw_lock_ s) ->
  table (db_ s) = None ->
  table_read_recent t n s =
  Ret false (refreshed t [] ("no such table: " +:+ table_name_ s) s).
Proof.
  intros Hwf Hm Hfree Htab.
  rewrite table_read_recent_eq, cb_save_start_eq, Hm.
  rewrite exec_select_no_table by exact Htab.
  rewrite cb_save_end_free.
  - cbn [Z.eqb SQLITE_ERROR]. f_equal.
    open_state s Hwf; reflexivity.
  - open_state s Hwf; split; cbn; auto.
  - exact Hfree.
  - reflexivity.
Qed.

(** The conversion of a delivered row throws: the exception leaves the
    refresh before [cb_save_end], with [alt_mutex_] still locked. *)
Lemma table_read_recent_throws t n rows rs e s :
  wf s -> alt_mutex_ s = false ->
  table (db_ s) = Some rows ->
  read_records (delivered_rows n rows (db_ s)) = (rs, Some e) ->
  exists s', table_read_recent t n s = Throws e s' /\
    alt_mutex_ s' = true /\ curr_idx_ s' = curr_idx_ s /\
    get_recent_load s' = get_recent_load s /\ staging s' = rs.
Proof.
  intros Hwf Hm Htab Hrs.
  rewrite table_read_recent_eq, cb_save_start_eq, Hm.
  rewrite (exec_select_recent n rows) by (exact Htab || apply wf_begin_refresh, Hwf).
  cbv zeta. cbn [db_ set_recent_loaded_ set_alt_mutex_].
  unfold delivered_rows in Hrs.
  destruct (next_fault (db_ s)) as [k |]; rewrite Hrs;
    (eexists; split; [reflexivity |]); open_state s Hwf; auto.
Qed.

(** While somebody holds [rw_lock_], a refresh does not return: it waits
    on [alt_mutex_], leaves by an exception, or waits for the exclusive
    hold. *)
Lemma table_read_recent_held t n s :
  wf s -> ~ rw_free (rw_lock_ s) ->
  table_read_recent t n s = Blocks on_alt_mutex s \/
  (exists e s', table_read_recent t n s = Throws e s') \/
  (exists s', table_read_recent t n s = Blocks on_rw_lock_exclusive s' /\
              rw_lock_ s' = rw_lock_ s /\
              rw_calls s' = (rw_calls s ++ [(t, write_lock_call)])%list).
Proof.
  intros Hwf Hheld. rewrite table_read_recent_eq, cb_save_start_eq.
  destruct (alt_mutex_ s); [left; reflexivity | right].
  destruct (table (db_ s)) as [rows |] eqn:Htab.
  - rewrite (exec_select_recent n rows) by (exact Htab || apply wf_begin_refresh, Hwf).
    cbv zeta. cbn [db_ set_recent_loaded_ set_alt_mutex_].
    destruct (next_fault (db_ s)) as [k |];
      match goal with
      | |- context [read_records ?x] => destruct (read_records x) as [rs [e |]]
      end; try (left; eauto; fail);
      right; rewrite cb_save_end_held by exact Hheld;
      (eexists; split; [reflexivity | split; reflexivity]).
  - rewrite exec_select_no_table by exact Htab.
    right. rewrite cb_save_end_held by exact Hheld.
    eexists; split; [reflexivity | split; reflexivity].
Qed.


(** ** The state after a refresh *)

Lemma curr_idx_refreshed t rs e s : curr_idx_ (refreshed t rs e s) = alt_idx s.
Proof. reflexivity. Qed.

Lemma wf_alt_idx_neq s : wf s -> alt_idx s <> curr_idx_ s.
Proof. intros Hwf. rewrite (wf_alt_idx s Hwf). destruct Hwf as [_ [-> | ->]]; lia. Qed.

Lemma get_recent_load_refreshed t rs e s :
  wf s -> get_recent_load (refreshed t rs e s) = rs.
Proof. intros Hwf. open_state s Hwf; reflexivity. Qed.


Lemma wf_refreshed t rs e s : wf s -> wf (refreshed t rs e s).
Proof. intros Hwf. open_state s Hwf; split; cbn; auto. Qed.

Lemma rw_calls_refreshed t rs e s :
  rw_calls (refreshed t rs e s)
  = (rw_calls s ++ [(t, write_lock_call); (t, write_unlock_call)])%list.
Proof. cbn [rw_calls refreshed]. rewrite <- app_assoc. reflexivity. Qed.

Lemma rw_free_dec l : {rw_free l} + {~ rw_free l}.
Proof.
  destruct l as [[| rd] [|]]; [right | left | right | right];
    try (split; reflexivity); intros [Hr Hw]; discriminate.
Qed.

(** ** Rows and the records read from them *)

Lemma read_records_all rows :
  Forall (fun row => exists r, read_record row = inr r) rows ->
  exists rs, read_records rows = (rs, None) /\
             Forall2 (fun row r => read_record row = inr r) rows rs.
Proof.
  induction 1 as [| row rows [r Hr] _ (rs & Hrs & Hall)].
  - exists []. split; [reflexivity | constructor].
  - exists (r :: rs). cbn [read_records]. rewrite Hr, Hrs.
    split; [reflexivity | constructor; assumption].
Qed.

Lemma read_records_Forall2 rows rs :
  read_records rows = (rs, None) ->
  Forall2 (fun row r => read_record row = inr r) rows rs.
Proof.
  revert rs. induction rows as [| row rows IH]; intros rs Hrs.
  - cbn in Hrs. injection Hrs as <-. constructor.
  - cbn [read_records] in Hrs. destruct (read_record row) as [e | r] eqn:Hr;
      [discriminate |].
    destruct (read_records rows) as [rs' oe]. injection Hrs as <- ->.
    constructor; [exact Hr | apply IH; reflexivity].
Qed.

Lemma Forall_select_recent_rows (P : Row -> Prop) n rows :
  Forall P rows -> Forall P (select_recent_rows n rows).
Proof.
  intros Hall. unfold select_recent_rows, limit_rows.
  assert (Hs : Forall P (order_by_time_desc rows)).
  { apply (Permutation_Forall (symmetry (order_by_time_desc_perm rows))). exact Hall. }
  destruct (n <? 0); [exact Hs | apply Forall_take; exact Hs].
Qed.

Lemma Forall_converts rows :
  forallb converts rows = true ->
  Forall (fun row => exists r, read_record row = inr r) rows.
Proof.
  induction rows as [| row rows IH]; [constructor |].
  cbn [forallb]. intros Hall. apply andb_prop in Hall as [Hrow Hrest].
  constructor; [| apply IH; exact Hrest].
  unfold converts in Hrow. destruct (read_record row) as [e | r]; [discriminate |].
  exists r. reflexivity.
Qed.

(** ** Rows stamped with numbers of one length *)

Lemma timestamp_read_record row r ts :
  read_record row = inr r -> TIME row = to_string ts -> 0 <= ts ->
  timestamp r = ts /\ ts <= INT_MAX.
Proof.
  unfold read_record. intros Hread Htime Hts. rewrite Htime in Hread.
  assert (Hdec : INT_MIN <= ts <= INT_MAX \/ ~ INT_MIN <= ts <= INT_MAX) by lia.
  destruct Hdec as [Hin | Hout].
  - rewrite (stoi_to_string ts Hin) in Hread.
    destruct (stoi (GAME_ID row)); [discriminate |].
    destruct (stoi (SEQ row)); [discriminate |].
    destruct (stof (PRI row)); [discriminate |].
    destruct (stof (REWARD row)); [discriminate |].
    injection Hread as <-. cbn [timestamp].
    unfold INT_MAX in *. split; [apply to_uint64_small; lia | lia].
  - rewrite (stoi_to_string_out_of_range ts Hout) in Hread. discriminate.
Qed.

Lemma stamped_order len row1 row2 r1 r2 :
  stamped len row1 -> stamped len row2 ->
  read_record row1 = inr r1 -> read_record row2 = inr r2 ->
  time_geb row1 row2 = true -> timestamp r2 <= timestamp r1.
Proof.
  intros (ts1 & Hts1 & Ht1 & Hl1) (ts2 & Hts2 & Ht2 & Hl2) Hr1 Hr2 Hge.
  destruct (timestamp_read_record _ _ _ Hr1 Ht1 Hts1) as [-> _].
  destruct (timestamp_read_record _ _ _ Hr2 Ht2 Hts2) as [-> _].
  unfold time_geb in Hge. rewrite Ht1, Ht2 in Hge.
  apply (leb_to_string ts2 ts1 Hts2 Hts1); [congruence | exact Hge].
Qed.

Lemma sorted_by_text_sorted_by_stamp len rows rs :
  Forall2 (fun row r => read_record row = inr r) rows rs ->
  Forall (stamped len) rows ->
  StronglySorted (fun a b => time_geb a b = true) rows ->
  StronglySorted (fun a b => timestamp b <= timestamp a) rs.
Proof.
  induction 1 as [| row r rows rs Hr Hall IH]; intros Hst Hsorted; [constructor |].
  apply Forall_cons in Hst as [Hrow Hst].
  inversion Hsorted as [| ? ? Hsorted' Hfirst]; subst.
  constructor; [apply IH; assumption |].
  apply (Forall2_Forall_r _ _ _ _ Hall).
  apply Forall_forall. intros row' Hin r' Hr'.
  rewrite Forall_forall in Hst, Hfirst.
  exact (stamped_order len row row' r r' Hrow (Hst _ Hin) Hr Hr' (Hfirst _ Hin)).
Qed.

Lemma select_recent_rows_sorted n rows :
  StronglySorted (fun a b => time_geb a b = true) (select_recent_rows n rows).
Proof.
  unfold select_recent_rows, limit_rows.
  pose proof (order_by_time_desc_sorted rows) as Hs.
  destruct (n <? 0); [exact Hs |].
  rewrite <- (take_drop (Z.to_nat n) (order_by_time_desc rows)) in Hs.
  exact (StronglySorted_app_1_l _ _ _ Hs).
Qed.

(** ** [Insert] *)

Lemma Insert_eq now_ms r s :
  Insert now_ms r s =
  match table (db_ s) with
  | None =>
      Ret false (set_last_err_ ("no such table: " +:+ table_name_ s)
                   (set_db_ (pop_fault (db_ s)) s))
  | Some rows =>
      match row_of_record now_ms r with
      | None => Ret false (set_last_err_ "syntax error" (set_db_ (pop_fault (db_ s)) s))
      | Some row =>
          if bool_decide (TIME row ∈ map TIME rows)
          then Ret false
                 (set_last_err_ ("UNIQUE constraint failed: " +:+ table_name_ s +:+ ".TIME")
                    (set_db_ (pop_fault (db_ s)) s))
          else match next_fault (db_ s) with
               | None => Ret true (set_last_err_ "" (set_db_ (with_row row rows (db_ s)) s))
               | Some _ =>
                   Ret false (set_last_err_ "disk I/O error"
                                (set_db_ (pop_fault (db_ s)) s))
               end
      end
  end.
Proof.
  unfold Insert, table_insert, bind, ret. rewrite exec_eq.
  unfold sqlite3_exec, bind, gets, modify, ret, row_of_record, with_row, pop_fault.
  cbn [sql_step table indexes faults].
  destruct (table (db_ s)) as [rows |]; [| reflexivity].
  destruct (insert_row _ _ _ _ _ _ _) as [row |]; [| reflexivity].
  destruct (bool_decide (TIME row ∈ map TIME rows)); [reflexivity |].
  destruct (next_fault (db_ s)); reflexivity.
Qed.



Lemma int_column_text_to_string v :
  - 2 ^ 63 <= v < 2 ^ 63 -> int_column_text (to_string v) = Some (to_string v).
Proof.
  intros [Hlo Hhi]. unfold int_column_text. rewrite sql_integer_to_string.
  apply Z.leb_le in Hlo. apply Z.ltb_lt in Hhi. rewrite Hlo, Hhi. reflexivity.
Qed.

(** ** A record written and read back *)


(** The row stored for a record whose fields the texts can carry. *)
Lemma row_of_record_plain now_ms r p' w' :
  timestamp r <> 0 ->
  - 2 ^ 63 <= game_id r < 2 ^ 63 -> - 2 ^ 63 <= seq r < 2 ^ 63 ->
  plain_text (machine r) = true -> plain_text (content r) = true ->
  sqlite_real_text (to_string_float (pri r)) = Some p' ->
  sqlite_real_text (to_string_float (reward r)) = Some w' ->
  row_of_record now_ms r
  = Some (mkRow (to_string (timestamp r)) (to_string (game_id r)) (machine r)
            (to_string (seq r)) p' w' (content r)).
Proof.
  intros Hts Hgid Hseq Hm Hc Hp Hw. unfold row_of_record, insert_row.
  apply Z.eqb_neq in Hts. rewrite Hts.
  rewrite (dq_literal_plain _ (plain_text_to_string _)).
  rewrite !int_column_text_to_string by assumption.
  rewrite !dq_literal_plain by assumption.
  rewrite Hp, Hw. reflexivity.
Qed.





(** ** [Sampler] *)

Lemma read_shared_lock_eq t s :
  read_shared_lock t s =
  if writer (rw_lock_ s)
  then Blocks on_rw_lock_shared (record_call t read_shared_lock_call s)
  else Ret tt (set_rw_lock_ {| readers := S (readers (rw_lock_ s)); writer := false |}
                 (record_call t read_shared_lock_call s)).
Proof.
  unfold read_shared_lock, bind, gets, modify, block, rw_read_shared_lock.
  cbn [rw_lock_ record_call]. destruct (writer (rw_lock_ s)); reflexivity.
Qed.

Lemma read_shared_unlock_eq t s :
  read_shared_unlock t s =
  match readers (rw_lock_ s) with
  | S k => Ret tt (set_rw_lock_ {| readers := k; writer := writer (rw_lock_ s) |}
                     (record_call t read_shared_unlock_call s))
  | O => Undefined unlock_of_lock_not_held (record_call t read_shared_unlock_call s)
  end.
Proof.
  unfold read_shared_unlock, bind, gets, modify, undefined_behaviour,
    rw_read_shared_unlock.
  cbn [rw_lock_ record_call]. destruct (readers (rw_lock_ s)); reflexivity.
Qed.

Lemma Sampler_ctor_eq t now_ms s :
  Sampler_ctor t now_ms s =
  match read_shared_lock t s with
  | Ret _ s' => Ret {| rng_ := mt_seed (time_NULL now_ms) |} s'
  | Throws e s' => Throws e s'
  | Blocks l s' => Blocks l s'
  | Undefined u s' => Undefined u s'
  end.
Proof.
  unfold Sampler_ctor, bind, ret. destruct (read_shared_lock t s); reflexivity.
Qed.

(** A constructed Sampler's engine is seeded with the second of its
    construction, and with nothing else. *)
Lemma Sampler_ctor_rng t now_ms s smp s' :
  Sampler_ctor t now_ms s = Ret smp s' ->
  smp = {| rng_ := mt_seed (time_NULL now_ms) |}.
Proof.
  rewrite Sampler_ctor_eq. destruct (read_shared_lock t s); try discriminate.
  intros Heq. injection Heq as <- _. reflexivity.
Qed.

(** [sample] in a state whose active buffer is not empty: no refresh, and
    the record at the drawn index. *)
Lemma sample_nonempty t smp s :
  get_recent_load s <> [] ->
  sample t smp s =
  let loaded := get_recent_load s in
  let '(idx, smp') := draw_index smp (Z.of_nat (length loaded)) in
  match vector_at loaded idx s with
  | Ret r s' => Ret (r, smp') s'
  | Throws e s' => Throws e s'
  | Blocks l s' => Blocks l s'
  | Undefined u s' => Undefined u s'
  end.
Proof.
  intros Hne. unfold sample, bind at 1 2, gets at 1.
  rewrite bool_decide_eq_false_2 by exact Hne. unfold ret at 1. cbv zeta.
  destruct (get_recent_load s) as [| r0 l] eqn:Hl; [congruence |].
  assert (Hsz : (Z.of_nat (length (r0 :: l)) =? 0) = false)
    by (apply Z.eqb_neq; cbn [length]; lia).
  rewrite Hsz. destruct (draw_index smp _) as [idx smp'].
  unfold bind, ret. destruct (vector_at _ idx s); reflexivity.
Qed.

(** [sample] in a state whose active buffer is empty: a refresh with
    window 1000 first. *)
Lemma sample_empty t smp s :
  get_recent_load s = [] ->
  sample t smp s =
  match table_read_recent t 1000 s with
  | Ret _ s1 =>
      let loaded := get_recent_load s1 in
      if Z.of_nat (length loaded) =? 0 then Undefined modulo_by_zero s1
      else
        let '(idx, smp') := draw_index smp (Z.of_nat (length loaded)) in
        match vector_at loaded idx s1 with
        | Ret r s' => Ret (r, smp') s'
        | Throws e s' => Throws e s'
        | Blocks l s' => Blocks l s'
        | Undefined u s' => Undefined u s'
        end
  | Throws e s1 => Throws e s1
  | Blocks l s1 => Blocks l s1
  | Undefined u s1 => Undefined u s1
  end.
Proof.
  intros He. unfold sample, bind at 1 2, gets at 1. rewrite He.
  rewrite bool_decide_eq_true_2 by reflexivity.
  unfold bind at 1. destruct (table_read_recent t 1000 s) as [b s1 | | |];
    try reflexivity.
  unfold gets. cbv zeta.
  destruct (Z.of_nat (length (get_recent_load s1)) =? 0); [reflexivity |].
  destruct (draw_index smp _) as [idx smp'].
  unfold bind, ret. destruct (vector_at _ idx s1); reflexivity.
Qed.

(** With [alt_mutex_] free, somebody holding [rw_lock_], and delivered
    rows that all convert, a refresh waits for the exclusive hold. *)
Lemma table_read_recent_waits t n rs s :
  wf s -> alt_mutex_ s = false -> ~ rw_free (rw_lock_ s) ->
  read_records (refresh_rows n (db_ s)) = (rs, None) ->
  exists s', table_read_recent t n s = Blocks on_rw_lock_exclusive s' /\
    rw_lock_ s' = rw_lock_ s /\
    rw_calls s' = (rw_calls s ++ [(t, write_lock_call)])%list.
Proof.
  intros Hwf Hm Hheld Hrs. rewrite table_read_recent_eq, cb_save_start_eq, Hm.
  unfold refresh_rows in Hrs.
  destruct (table (db_ s)) as [rows |] eqn:Htab.
  - rewrite (exec_select_recent n rows) by (exact Htab || apply wf_begin_refresh, Hwf).
    cbv zeta. cbn [db_ set_recent_loaded_ set_alt_mutex_].
    unfold delivered_rows in Hrs.
    destruct (next_fault (db_ s)) as [k |]; rewrite Hrs;
      rewrite cb_save_end_held by exact Hheld;
      (eexists; split; [reflexivity | split; reflexivity]).
  - rewrite exec_select_no_table by exact Htab.
    rewrite cb_save_end_held by exact Hheld.
    eexists; split; [reflexivity | split; reflexivity].
Qed.

Lemma count_call_app c l1 l2 :
  count_call c (l1 ++ l2) = (count_call c l1 + count_call c l2)%nat.
Proof. unfold count_call. rewrite filter_app, length_app. reflexivity. Qed.

(** ** The class invariant is kept *)

Local Abbreviation keeps_wf m := (@keeps_wf float _ m).

Lemma keeps_wf_ret {A} (a : A) : keeps_wf (ret a : M A).
Proof. intros s Hwf. exact Hwf. Qed.

Lemma keeps_wf_gets {A} (f : SharedRWBuffer -> A) : keeps_wf (gets f).
Proof. intros s Hwf. exact Hwf. Qed.

Lemma keeps_wf_throw {A} e : keeps_wf (throw e : M A).
Proof. intros s Hwf. exact Hwf. Qed.

Lemma keeps_wf_block {A} l : keeps_wf (block l : M A).
Proof. intros s Hwf. exact Hwf. Qed.

Lemma keeps_wf_undefined {A} u : keeps_wf (undefined_behaviour u : M A).
Proof. intros s Hwf. exact Hwf. Qed.

Lemma keeps_wf_modify (f : SharedRWBuffer -> SharedRWBuffer) :
  (forall s, wf s -> wf (f s)) -> keeps_wf (modify f).
Proof. intros Hf s Hwf. apply Hf, Hwf. Qed.

Lemma keeps_wf_bind {A B} (m : M A) (k : A -> M B) :
  keeps_wf m -> (forall a, keeps_wf (k a)) -> keeps_wf (bind m k).
Proof.
  intros Hm Hk s Hwf. unfold bind. specialize (Hm s Hwf).
  destruct (m s) as [a s' | | |]; cbn [final_state] in *; try exact Hm.
  apply Hk, Hm.
Qed.

Lemma keeps_wf_or_throw {A} (x : exn + A) : keeps_wf (or_throw x : M A).
Proof. destruct x; [apply keeps_wf_throw | apply keeps_wf_ret]. Qed.

Create HintDb keeps.

Local Hint Resolve keeps_wf_ret keeps_wf_gets keeps_wf_throw keeps_wf_block
  keeps_wf_undefined keeps_wf_or_throw : keeps.

Ltac keeps_step :=
  first [ apply keeps_wf_bind; [| intros ?]
        | apply keeps_wf_modify; intros ? ?; assumption
        | solve [auto with keeps] ].

Lemma keeps_wf_read_shared_lock t : keeps_wf (read_shared_lock t).
Proof.
  unfold read_shared_lock. repeat keeps_step.
  destruct (rw_read_shared_lock _); repeat keeps_step.
Qed.

Lemma keeps_wf_read_shared_unlock t : keeps_wf (read_shared_unlock t).
Proof.
  unfold read_shared_unlock. repeat keeps_step.
  destruct (rw_read_shared_unlock _); repeat keeps_step.
Qed.

Lemma keeps_wf_alt_mutex_lock : keeps_wf alt_mutex_lock.
Proof.
  unfold alt_mutex_lock. repeat keeps_step.
  match goal with |- keeps_wf (if ?b then _ else _) => destruct b end;
    repeat keeps_step.
Qed.

Lemma keeps_wf_cb_save r : keeps_wf (cb_save r).
Proof. intros s Hwf. rewrite cb_save_eq. apply wf_push_staging, Hwf. Qed.

Lemma keeps_wf_read_callback row : keeps_wf (read_callback row).
Proof.
  unfold read_callback. apply keeps_wf_bind; [apply keeps_wf_or_throw |].
  intros r. apply keeps_wf_bind; [apply keeps_wf_cb_save |].
  intros _. apply keeps_wf_ret.
Qed.

Lemma keeps_wf_deliver (cb : Row -> M Z) rows :
  (forall row, keeps_wf (cb row)) -> keeps_wf (deliver cb rows).
Proof.
  intros Hcb. induction rows as [| row rows IH]; cbn [deliver]; [keeps_step |].
  apply keeps_wf_bind; [apply Hcb |]. intros r.
  destruct (r =? 0); [exact IH | keeps_step].
Qed.

Lemma keeps_wf_exec q (callback : option (Row -> M Z)) :
  (forall cb row, callback = Some cb -> keeps_wf (cb row)) ->
  keeps_wf (exec q callback).
Proof.
  intros Hcb. unfold exec, sqlite3_exec.
  apply keeps_wf_bind.
  - apply keeps_wf_bind; [keeps_step |]. intros db.
    apply keeps_wf_bind; [keeps_step |]. intros name.
    cbv zeta. destruct (sql_step _ _ _) as [err | [rows db']]; [repeat keeps_step |].
    destruct (next_fault db) as [k |].
    + repeat keeps_step.
      destruct callback as [cb |]; [| keeps_step].
      apply keeps_wf_deliver. intros row. exact (Hcb cb row eq_refl).
    + repeat keeps_step.
      destruct callback as [cb |]; [| keeps_step].
      apply keeps_wf_deliver. intros row. exact (Hcb cb row eq_refl).
  - intros res. cbv zeta. repeat keeps_step.
    destruct (negb _); repeat keeps_step.
Qed.

Lemma keeps_wf_cb_save_start : keeps_wf cb_save_start.
Proof.
  intros s Hwf. rewrite cb_save_start_eq.
  destruct (alt_mutex_ s); [exact Hwf | apply wf_begin_refresh, Hwf].
Qed.

Lemma keeps_wf_cb_save_end t : keeps_wf (cb_save_end t).
Proof.
  intros s Hwf. destruct (rw_free_dec (rw_lock_ s)) as [Hfree | Hheld].
  - destruct (alt_mutex_ s) eqn:Hm.
    + rewrite cb_save_end_free by assumption. cbn [final_state].
      open_state s Hwf; split; cbn; auto.
    + destruct Hfree as [Hr Hw].
      destruct s as [db name err cur bufs [rd wr] mtx vb calls].
      cbn in Hr, Hw, Hm. subst rd wr mtx.
      destruct Hwf as [Hlen Hcur]. cbn in Hlen, Hcur.
      destruct bufs as [| b0 [| b1 [| ? ?]]]; try discriminate Hlen.
      destruct Hcur; subst cur; split; cbn; auto.
  - rewrite cb_save_end_held by exact Hheld. exact Hwf.
Qed.

Lemma keeps_wf_table_read_recent t n : keeps_wf (table_read_recent t n).
Proof.
  unfold table_read_recent.
  apply keeps_wf_bind; [apply keeps_wf_cb_save_start |]. intros _.
  apply keeps_wf_bind.
  - apply keeps_wf_exec. intros cb row Hcb. injection Hcb as <-.
    apply keeps_wf_read_callback.
  - intros rc. apply keeps_wf_bind; [apply keeps_wf_cb_save_end |].
    intros _. keeps_step.
Qed.

Lemma keeps_wf_Insert now_ms r : keeps_wf (Insert now_ms r).
Proof.
  unfold Insert, table_insert. apply keeps_wf_bind; [| intros rc; keeps_step].
  apply keeps_wf_exec. discriminate.
Qed.

Lemma keeps_wf_GetSampler elide t now_ms : keeps_wf (GetSampler elide t now_ms).
Proof.
  assert (Hctor : keeps_wf (Sampler_ctor t now_ms)).
  { unfold Sampler_ctor. cbv zeta.
    apply keeps_wf_bind; [apply keeps_wf_read_shared_lock | intros _; keeps_step]. }
  destruct elide; cbn [GetSampler]; [exact Hctor |].
  apply keeps_wf_bind; [exact Hctor |]. intros tmp.
  apply keeps_wf_bind; [unfold Sampler_move; keeps_step |]. intros result.
  apply keeps_wf_bind; [apply keeps_wf_read_shared_unlock | intros _; keeps_step].
Qed.

Lemma keeps_wf_vector_at loaded idx : keeps_wf (vector_at loaded idx).
Proof.
  unfold vector_at. cbv zeta.
  match goal with |- keeps_wf (if ?b then _ else _) => destruct b end;
    keeps_step.
Qed.

Lemma keeps_wf_sample t smp : keeps_wf (sample t smp).
Proof.
  unfold sample. apply keeps_wf_bind; [keeps_step |]. intros loaded.
  apply keeps_wf_bind.
  - destruct (bool_decide (loaded = [])); [| keeps_step].
    apply keeps_wf_bind; [apply keeps_wf_table_read_recent | intros _; keeps_step].
  - intros loaded'. cbv zeta.
    destruct (Z.of_nat (length loaded') =? 0); [keeps_step |].
    destruct (draw_index smp _) as [idx smp'].
    apply keeps_wf_bind; [apply keeps_wf_vector_at | intros r; keeps_step].
Qed.

(** The constructor establishes the invariant. *)
Lemma wf_SharedRWBuffer_ctor open_rc db name verbose :
  wf (final_state (SharedRWBuffer_ctor (float := float) open_rc db name verbose)).
Proof.
  unfold SharedRWBuffer_ctor. cbv zeta.
  set (s0 := @Build_SharedRWBuffer float _ _ _ _ _ _ _ _ _).
  assert (Hwf0 : wf s0) by (split; [reflexivity | left; reflexivity]).
  destruct (negb (open_rc =? 0)); [exact Hwf0 |].
  revert Hwf0. generalize s0.
  change (keeps_wf (e <- table_exists;;
                    if negb e then table_create;;; ret tt else ret tt)).
  assert (Hexec : forall q, keeps_wf (exec q None)).
  { intros q. apply keeps_wf_exec. discriminate. }
  apply keeps_wf_bind.
  - unfold table_exists. apply keeps_wf_bind; [apply Hexec | intros rc; keeps_step].
  - intros e. destruct (negb e); [| keeps_step].
    apply keeps_wf_bind; [| intros _; keeps_step].
    unfold table_create.
    apply keeps_wf_bind; [apply Hexec |]. intros rc1.
    destruct (negb (rc1 =? 0)); [keeps_step |].
    apply keeps_wf_bind; [apply Hexec |]. intros rc2.
    destruct (negb (rc2 =? 0)); [keeps_step |].
    apply keeps_wf_bind; [apply Hexec |]. intros rc3.
    destruct (negb (rc3 =? 0)); keeps_step.
Qed.

(** ** What [sample] returns *)


(** On a non-empty active buffer (of a size an [int] can index) [sample]
    returns one of its records and leaves the buffer state alone. *)
Lemma sample_returns_member t smp s :
  get_recent_load s <> [] ->
  Z.of_nat (length (get_recent_load s)) <= 2 ^ 31 ->
  exists r smp', sample t smp s = Ret (r, smp') s /\ r ∈ get_recent_load s.
Proof.
  intros Hne Hsize. rewrite (sample_nonempty t smp s Hne). cbv zeta.
  unfold draw_index. destruct (mt_next (rng_ smp)) as [x g].
  set (size := Z.of_nat (length (get_recent_load s))) in *.
  assert (Hpos : 0 < size).
  { unfold size. destruct (get_recent_load s); [congruence | cbn [length]; lia]. }
  pose proof (Z.mod_pos_bound x size Hpos) as Hmod.
  unfold vector_at. cbv zeta.
  rewrite to_int_small by lia. rewrite to_uint64_small by lia.
  fold size. destruct (x mod size <? size) eqn:Hlt; [| apply Z.ltb_ge in Hlt; lia].
  destruct (lookup_lt_is_Some_2 (get_recent_load s) (Z.to_nat (x mod size)))
    as [r Hr]; [unfold size in Hmod; lia |].
  rewrite Hr. cbn [from_option or_throw]. unfold ret.
  exists r, {| rng_ := g |}. split; [reflexivity |].
  apply list_elem_of_lookup. eauto.
Qed.

(** On an empty active buffer, with somebody holding [rw_lock_], [sample]
    does not return. *)
Lemma sample_empty_held_never_returns t smp s :
  wf s -> ~ rw_free (rw_lock_ s) -> get_recent_load s = [] ->
  forall a s', sample t smp s <> Ret a s'.
Proof.
  intros Hwf Hheld He a s'. rewrite (sample_empty t smp s He).
  destruct (table_read_recent_held t 1000 s Hwf Hheld)
    as [-> | [(e & s2 & ->) | (s2 & -> & _)]]; discriminate.
Qed.

(** [Insert] and the Sampler life cycle leave the buffers and the active
    index alone. *)
Lemma Insert_frame now_ms r s :
  recent_loaded_ (final_state (Insert now_ms r s)) = recent_loaded_ s /\
  curr_idx_ (final_state (Insert now_ms r s)) = curr_idx_ s /\
  rw_lock_ (final_state (Insert now_ms r s)) = rw_lock_ s.
Proof.
  rewrite Insert_eq.
  destruct (table (db_ s)); [| repeat split].
  destruct (row_of_record now_ms r); [| repeat split].
  destruct (bool_decide _); [repeat split |].
  destruct (next_fault (db_ s)); repeat split.
Qed.

Lemma GetSampler_frame elide t now_ms s :
  recent_loaded_ (final_state (GetSampler elide t now_ms s)) = recent_loaded_ s /\
  curr_idx_ (final_state (GetSampler elide t now_ms s)) = curr_idx_ s.
Proof.
  destruct s as [db name err cur bufs [rd wr] mtx vb calls].
  destruct elide, wr;
    unfold GetSampler, Sampler_ctor, Sampler_move, Sampler_dtor, read_shared_lock,
      read_shared_unlock, bind, ret, gets, modify, block, undefined_behaviour,
      rw_read_shared_lock, rw_read_shared_unlock;
    cbn [rw_lock_ record_call set_rw_lock_ writer readers final_state
         recent_loaded_ curr_idx_];
    split; reflexivity.
Qed.

Lemma Sampler_dtor_frame t smp s :
  recent_loaded_ (final_state (Sampler_dtor t smp s)) = recent_loaded_ s /\
  curr_idx_ (final_state (Sampler_dtor t smp s)) = curr_idx_ s.
Proof.
  unfold Sampler_dtor. rewrite read_shared_unlock_eq.
  destruct (readers (rw_lock_ s)); split; reflexivity.
Qed.

(** * The properties *)

(** C1 -- [sample] asks for the exclusive hold while its Sampler holds the
    shared one.  A thread obtains a Sampler while the active buffer is
    empty and calls [sample]: when the refresh gets [alt_mutex_] and its
    rows convert, the call ends in [write_lock] on the lock on which the
    same thread's shared hold is outstanding, and waits there. *)
Theorem sample_attempts_exclusive_while_shared (t : tid) (now_ms : Z)
    (s s1 : SharedRWBuffer) (smp : Sampler) (rs : list Record_) :
  wf s -> alt_mutex_ s = false -> get_recent_load s = [] ->
  read_records (refresh_rows 1000 (db_ s)) = (rs, None) ->
  (length (filter (fun e => e = (t, read_shared_unlock_call)) (rw_calls s))
   <= length (filter (fun e => e = (t, read_shared_lock_call)) (rw_calls s)))%nat ->
  GetSampler true t now_ms s = Ret smp s1 ->
  exists s2, sample t smp s1 = Blocks on_rw_lock_exclusive s2 /\
    (0 < readers (rw_lock_ s2))%nat /\
    exclusive_attempt_while_shared (rw_calls s2).
Proof.
  intros Hwf Hm He Hrs Hhist Hget.
  cbn [GetSampler] in Hget. rewrite Sampler_ctor_eq, read_shared_lock_eq in Hget.
  destruct (writer (rw_lock_ s)) eqn:Hw; [discriminate |].
  injection Hget as <- <-.
  set (s1 := set_rw_lock_ _ _).
  assert (Hheld : ~ rw_free (rw_lock_ s1)) by (intros [Hr _]; discriminate).
  destruct (table_read_recent_waits t 1000 rs s1 Hwf Hm Hheld Hrs)
    as (s2 & Hblk & Hlock & Hcalls).
  rewrite (sample_empty t _ s1 He), Hblk.
  exists s2. split; [reflexivity |]. split.
  - rewrite Hlock. cbn. lia.
  - exists t, (rw_calls s ++ [(t, read_shared_lock_call)])%list, [].
    split; [exact Hcalls |].
    unfold holds_shared. rewrite !filter_app, !length_app, !filter_cons, !filter_nil.
    destruct (decide ((t, read_shared_lock_call) = (t, read_shared_unlock_call)))
      as [Hbad |]; [discriminate Hbad |].
    destruct (decide ((t, read_shared_lock_call) = (t, read_shared_lock_call)))
      as [| Hbad]; [| contradiction].
    cbn [length]. lia.
Qed.

(** C2 -- [sample] on an empty store has no defined failure.  When the
    active buffer is empty and the refresh delivers no row, [sample]
    computes [rng_() % 0] if the exclusive hold is granted, and otherwise
    waits for the exclusive hold; it neither returns nor throws. *)
Theorem sample_on_empty_store (t : tid) (smp : Sampler) (s : SharedRWBuffer) :
  wf s -> get_recent_load s = [] -> alt_mutex_ s = false ->
  refresh_rows 1000 (db_ s) = [] ->
  (rw_free (rw_lock_ s) ->
   exists s', sample t smp s = Undefined modulo_by_zero s' /\
              get_recent_load s' = []) /\
  (~ rw_free (rw_lock_ s) ->
   exists s', sample t smp s = Blocks on_rw_lock_exclusive s').
Proof.
  intros Hwf He Hm Hrows. rewrite (sample_empty t smp s He). split.
  - intros Hfree. unfold refresh_rows in Hrows.
    destruct (table (db_ s)) as [rows |] eqn:Htab.
    + rewrite (table_read_recent_completes t 1000 rows [] s Hwf Hm Hfree Htab)
        by (rewrite Hrows; reflexivity).
      cbv zeta. rewrite get_recent_load_refreshed by exact Hwf.
      eexists. split; [reflexivity |]. apply get_recent_load_refreshed, Hwf.
    + rewrite (table_read_recent_no_table t 1000 s Hwf Hm Hfree Htab).
      cbv zeta. rewrite get_recent_load_refreshed by exact Hwf.
      eexists. split; [reflexivity |]. apply get_recent_load_refreshed, Hwf.
  - intros Hheld.
    destruct (table_read_recent_waits t 1000 [] s Hwf Hm Hheld) as (s' & -> & _).
    + rewrite Hrows. reflexivity.
    + exists s'. reflexivity.
Qed.


(** C5 -- A moved Sampler releases the shared hold a second time.  The
    move constructor takes no hold and leaves the source armed, so after
    one construction and one move the two destructors call
    [read_shared_unlock] twice for one [read_shared_lock], and the second
    release finds no hold: both for a caller that moves the Sampler it
    got and for a [GetSampler] whose return value is moved rather than
    constructed in place.  Without a move, calls are balanced. *)
Theorem moved_sampler_releases_twice (t : tid) (now_ms : Z)
    (s : SharedRWBuffer) :
  rw_free (rw_lock_ s) ->
  (exists s',
     (a <- GetSampler true t now_ms;; b <- Sampler_move a;;
      Sampler_dtor t b;;; Sampler_dtor t a) s
     = Undefined unlock_of_lock_not_held s' /\
     count_call read_shared_lock_call (rw_calls s')
     = S (count_call read_shared_lock_call (rw_calls s)) /\
     count_call read_shared_unlock_call (rw_calls s')
     = S (S (count_call read_shared_unlock_call (rw_calls s)))) /\
  (exists s',
     (smp <- GetSampler false t now_ms;; Sampler_dtor t smp) s
     = Undefined unlock_of_lock_not_held s' /\
     count_call read_shared_lock_call (rw_calls s')
     = S (count_call read_shared_lock_call (rw_calls s)) /\
     count_call read_shared_unlock_call (rw_calls s')
     = S (S (count_call read_shared_unlock_call (rw_calls s)))) /\
  (exists s',
     (smp <- GetSampler true t now_ms;; Sampler_dtor t smp) s = Ret tt s' /\
     rw_lock_ s' = rw_lock_ s /\
     count_call read_shared_lock_call (rw_calls s')
     = S (count_call read_shared_lock_call (rw_calls s)) /\
     count_call read_shared_unlock_call (rw_calls s')
     = S (count_call read_shared_unlock_call (rw_calls s))).
Proof.
  intros [Hr Hw].
  destruct s as [db name err cur bufs [rd wr] mtx vb calls].
  cbn in Hr, Hw. subst rd wr.
  split; [| split]; eexists; (split; [reflexivity |]);
    cbn [rw_calls rw_lock_ record_call set_rw_lock_];
    rewrite ?count_call_app; cbn; repeat case_decide; try discriminate;
    try contradiction; cbn [length].
  all: repeat split; lia.
Qed.

(** C6 (amended) -- A refresh loads the rows that come first in
    descending byte-wise order of the TIME text.  On an existing table
    whose rows all convert, run to completion without an I/O fault, the
    refresh returns [true] and the active buffer then holds, in order,
    the records of the first [n] rows of the table sorted by TIME text in
    descending order (all rows when [n] is negative), [min n rows] of
    them when [n >= 0].  The order is that of the texts, not that of the
    appends nor, in general, that of the numbers the texts spell; when
    the TIME texts of all rows are decimal numbers of one length, it is
    newest first by timestamp. *)
Theorem refresh_loads_by_time_text (t : tid) (n : Z) (s : SharedRWBuffer)
    (rows : list Row) :
  wf s -> alt_mutex_ s = false -> rw_free (rw_lock_ s) ->
  table (db_ s) = Some rows -> next_fault (db_ s) = None ->
  Forall (fun row => exists r, read_record row = inr r) rows ->
  exists s' sorted,
    table_read_recent t n s = Ret true s' /\
    Permutation sorted rows /\
    StronglySorted (fun a b => String.leb (TIME b) (TIME a) = true) sorted /\
    Forall2 (fun row r => read_record row = inr r)
      (if n <? 0 then sorted else take (Z.to_nat n) sorted)
      (get_recent_load s') /\
    (0 <= n ->
     Z.of_nat (length (get_recent_load s')) = Z.min n (Z.of_nat (length rows))) /\
    (forall len, Forall (stamped len) rows ->
     StronglySorted (fun a b => timestamp b <= timestamp a) (get_recent_load s')).
Proof.
  intros Hwf Hm Hfree Htab Hfault Hconv.
  destruct (read_records_all (select_recent_rows n rows)
              (Forall_select_recent_rows _ n rows Hconv)) as (rs & Hrs & Hall).
  assert (Hdel : read_records (delivered_rows n rows (db_ s)) = (rs, None)).
  { unfold delivered_rows. rewrite Hfault. exact Hrs. }
  exists (refreshed t rs "" s), (order_by_time_desc rows).
  split.
  { rewrite (table_read_recent_completes t n rows rs s Hwf Hm Hfree Htab Hdel).
    rewrite Hfault. rewrite bool_decide_eq_true_2 by reflexivity. reflexivity. }
  rewrite get_recent_load_refreshed by exact Hwf.
  split; [apply order_by_time_desc_perm |].
  split; [apply order_by_time_desc_sorted |].
  split; [exact Hall |].
  split.
  - intros Hn. rewrite <- (Forall2_length _ _ _ Hall).
    unfold select_recent_rows, limit_rows.
    destruct (n <? 0) eqn:Hneg; [apply Z.ltb_lt in Hneg; lia |].
    rewrite length_take, (Permutation_length (order_by_time_desc_perm rows)). lia.
  - intros len Hst.
    apply (sorted_by_text_sorted_by_stamp len (select_recent_rows n rows) rs Hall).
    + apply Forall_select_recent_rows. exact Hst.
    + apply select_recent_rows_sorted.
Qed.



(** C9 (amended) -- A Sampler's engine is its own and is seeded with
    [time(NULL)], the second of its construction, and nothing else.  Two
    Samplers constructed within the same second, by whichever threads and
    in whichever states, therefore draw the same index at every call at
    which they see buffers of the same size. *)
Theorem samplers_of_one_second_draw_alike (t1 t2 : tid) (now1 now2 : Z)
    (s1 s1' s2 s2' : SharedRWBuffer) (smp1 smp2 : Sampler) :
  time_NULL now1 = time_NULL now2 ->
  Sampler_ctor t1 now1 s1 = Ret smp1 s1' ->
  Sampler_ctor t2 now2 s2 = Ret smp2 s2' ->
  rng_ smp1 = mt_seed (time_NULL now1) /\
  rng_ smp2 = mt_seed (time_NULL now2) /\
  forall sizes, index_sequence smp1 sizes = index_sequence smp2 sizes.
Proof.
  intros Hsec H1 H2.
  apply Sampler_ctor_rng in H1, H2. subst smp1 smp2.
  cbn [rng_]. rewrite Hsec. auto.
Qed.

(** C10 -- Refresh writes are confined to the staging slot.  In a state
    with two slots and a valid active index, [cb_save_start] changes
    neither the active index nor the active buffer and, once it has
    [alt_mutex_], leaves the staging slot empty; [cb_save] returns [true],
    changes neither the active index nor the active buffer and appends the
    record to the staging slot; so does every run of the callback over
    the rows of a SELECT, however it ends; the flip in [cb_save_end] is
    what makes the other slot active, and it changes the contents of no
    slot. *)
Theorem refresh_writes_confined_to_staging (t : tid) (r : Record_)
    (s : SharedRWBuffer) :
  wf s ->
  (get_recent_load (final_state (cb_save_start s)) = get_recent_load s /\
   curr_idx_ (final_state (cb_save_start s)) = curr_idx_ s /\
   (alt_mutex_ s = false ->
    exists s1, cb_save_start s = Ret tt s1 /\ staging s1 = [])) /\
  (exists s2, cb_save r s = Ret true s2 /\
     get_recent_load s2 = get_recent_load s /\
     curr_idx_ s2 = curr_idx_ s /\
     staging s2 = (staging s ++ [r])%list) /\
  (forall rows,
     get_recent_load (final_state (deliver read_callback rows s))
     = get_recent_load s /\
     curr_idx_ (final_state (deliver read_callback rows s)) = curr_idx_ s) /\
  (rw_free (rw_lock_ s) -> alt_mutex_ s = true ->
   exists s3, cb_save_end t s = Ret tt s3 /\
     curr_idx_ s3 = alt_idx s /\ curr_idx_ s3 <> curr_idx_ s /\
     recent_loaded_ s3 = recent_loaded_ s).
Proof.
  intros Hwf. split; [| split; [| split]].
  - rewrite cb_save_start_eq. destruct (alt_mutex_ s) eqn:Hm.
    + repeat split; [reflexivity .. | discriminate].
    + cbn [final_state]. split; [| split; [reflexivity |]].
      * open_state s Hwf; reflexivity.
      * intros _. eexists. split; [reflexivity |]. open_state s Hwf; reflexivity.
  - exists (push_staging [r] s). split; [apply cb_save_eq |].
    split; [apply get_recent_load_push_staging, Hwf |].
    split; [reflexivity | apply staging_push_staging, Hwf].
  - intros rows. rewrite (deliver_read_callback rows s Hwf).
    destruct (read_records rows) as [rs [e |]]; cbn [final_state];
      (split; [apply get_recent_load_push_staging, Hwf | reflexivity]).
  - intros Hfree Hm. eexists. split; [apply cb_save_end_free; assumption |].
    cbn [curr_idx_ set_alt_mutex_ record_call set_curr_idx_ recent_loaded_].
    split; [reflexivity | split; [apply wf_alt_idx_neq, Hwf | reflexivity]].
Qed.

(** * Further properties *)

(** ** The fault plan *)



(** ** Statements without a callback *)

Lemma exec_None_eq q s :
  exec q None s =
  match sql_step (table_name_ s) q (pop_fault (db_ s)) with
  | inl err =>
      Ret (fst err)
        (set_last_err_ (if negb (fst err =? 0) then snd err else "")
           (set_db_ (pop_fault (db_ s)) s))
  | inr (_, db') =>
      match next_fault (db_ s) with
      | None => Ret SQLITE_OK (set_last_err_ "" (set_db_ db' s))
      | Some _ =>
          Ret SQLITE_IOERR
            (set_last_err_ "disk I/O error" (set_db_ (pop_fault (db_ s)) s))
      end
  end.
Proof.
  rewrite exec_eq. unfold sqlite3_exec, bind, gets, modify, ret.
  destruct (sql_step _ _ _) as [[rc msg] | [rows db']]; [reflexivity |].
  destruct (next_fault (db_ s)); reflexivity.
Qed.

(** A statement without a callback returns, and touches nothing but the
    database handle and the error text. *)
Lemma exec_None_frame q s :
  exists rc db err, exec q None s = Ret rc (set_last_err_ err (set_db_ db s)).
Proof.
  rewrite exec_None_eq.
  destruct (sql_step _ _ _) as [[rc msg] | [rows db']]; [eauto |].
  destruct (next_fault (db_ s)); eauto.
Qed.

Lemma table_exists_eq s :
  table_exists s =
  match table (db_ s) with
  | Some _ =>
      match next_fault (db_ s) with
      | None => Ret true (set_last_err_ "" (set_db_ (pop_fault (db_ s)) s))
      | Some _ =>
          Ret false (set_last_err_ "disk I/O error" (set_db_ (pop_fault (db_ s)) s))
      end
  | None =>
      Ret false (set_last_err_ ("no such table: " +:+ table_name_ s)
                   (set_db_ (pop_fault (db_ s)) s))
  end.
Proof.
  unfold table_exists, bind, ret. rewrite exec_None_eq.
  cbn [sql_step table pop_fault].
  destruct (table (db_ s)); [| reflexivity].
  destruct (next_fault (db_ s)); reflexivity.
Qed.

Lemma table_create_frame s :
  exists b db err, table_create s = Ret b (set_last_err_ err (set_db_ db s)).
Proof.
  unfold table_create, bind, ret.
  destruct (exec_None_frame CREATE_TABLE s) as (rc1 & db1 & e1 & ->).
  destruct (negb (rc1 =? 0)); [eauto |].
  destruct (exec_None_frame (CREATE_INDEX "idx_pri" "PRI")
              (set_last_err_ e1 (set_db_ db1 s))) as (rc2 & db2 & e2 & ->).
  destruct (negb (rc2 =? 0)); [exists false, db2, e2; reflexivity |].
  destruct (exec_None_frame (CREATE_INDEX "idx_reward" "REWARD")
              (set_last_err_ e2 (set_db_ db2 (set_last_err_ e1 (set_db_ db1 s)))))
    as (rc3 & db3 & e3 & ->).
  destruct (negb (rc3 =? 0)); [exists false, db3, e3 | exists true, db3, e3];
    reflexivity.
Qed.

(** ** The constructor *)


(** The state the member initialisers set up. *)
Lemma SharedRWBuffer_ctor_returns db name verbose :
  exists db' err,
    SharedRWBuffer_ctor (float := float) 0 db name verbose
    = Ret tt {| db_ := db'; table_name_ := name; last_err_ := err;
                curr_idx_ := 0; recent_loaded_ := [[]; []];
                rw_lock_ := {| readers := 0; writer := false |};
                alt_mutex_ := false; verbose_ := verbose; rw_calls := [] |}.
Proof.
  unfold SharedRWBuffer_ctor. cbn [Z.eqb negb]. cbv zeta.
  set (s0 := @Build_SharedRWBuffer float _ _ _ _ _ _ _ _ _).
  unfold bind at 1. rewrite table_exists_eq.
  destruct (table (db_ s0)).
  - destruct (next_fault (db_ s0)); cbn [negb].
    + unfold bind, ret.
      destruct (table_create_frame
                  (set_last_err_ "disk I/O error" (set_db_ (pop_fault (db_ s0)) s0)))
        as (b & db' & err & ->).
      exists db', err. reflexivity.
    + unfold ret. eexists _, _. reflexivity.
  - cbn [negb]. unfold bind, ret.
    destruct (table_create_frame
                (set_last_err_ ("no such table: " +:+ table_name_ s0)
                   (set_db_ (pop_fault (db_ s0)) s0)))
      as (b & db' & err & ->).
    exists db', err. reflexivity.
Qed.

(** X1 -- The constructor throws exactly when the database cannot be
    opened: with a non-zero result of [sqlite3_open] it throws
    [range_error] before any statement is run, and with the result 0 it
    returns whatever the statements that follow do -- the outcome of
    [table_create] is not looked at.  The object it returns has two empty
    slots, slot 0 active, and no lock taken. *)
Theorem constructor_throws_only_when_open_fails (open_rc : Z) (db : sqlite3)
    (name : string) (verbose : bool) :
  (open_rc <> 0 ->
   exists s, SharedRWBuffer_ctor (float := float) open_rc db name verbose
             = Throws range_error s /\ db_ s = db) /\
  (open_rc = 0 ->
   exists s, SharedRWBuffer_ctor (float := float) open_rc db name verbose = Ret tt s /\
     wf s /\ table_name_ s = name /\ get_recent_load s = [] /\ staging s = [] /\
     curr_idx_ s = 0 /\ rw_free (rw_lock_ s) /\ alt_mutex_ s = false).
Proof.
  split.
  - intros Hrc. apply Z.eqb_neq in Hrc. unfold SharedRWBuffer_ctor.
    rewrite Hrc. cbn [negb]. eexists. split; reflexivity.
  - intros ->. destruct (SharedRWBuffer_ctor_returns db name verbose)
      as (db' & err & ->).
    eexists. split; [reflexivity |].
    repeat split; try reflexivity. left. reflexivity.
Qed.



(** ** [Insert] *)

(** What one [Insert] does to the table. *)
Lemma Insert_table now_ms r s :
  exists b s', Insert now_ms r s = Ret b s' /\
    indexes (db_ s') = indexes (db_ s) /\
    if b
    then LastError s' = "" /\
         exists rows row,
           table (db_ s) = Some rows /\ table (db_ s') = Some (rows ++ [row])%list /\
           row_of_record now_ms r = Some row /\ TIME row ∉ map TIME rows
    else table (db_ s') = table (db_ s).
Proof.
  rewrite Insert_eq.
  destruct (table (db_ s)) as [rows |] eqn:Htab.
  2:{ eexists false, _. split; [reflexivity |]. split; [reflexivity | exact Htab]. }
  destruct (row_of_record now_ms r) as [row |] eqn:Hrow.
  2:{ eexists false, _. split; [reflexivity |]. split; [reflexivity | exact Htab]. }
  destruct (bool_decide (TIME row ∈ map TIME rows)) eqn:Hin.
  { eexists false, _. split; [reflexivity |]. split; [reflexivity | exact Htab]. }
  apply bool_decide_eq_false in Hin.
  destruct (next_fault (db_ s)).
  { eexists false, _. split; [reflexivity |]. split; [reflexivity | exact Htab]. }
  eexists true, _. split; [reflexivity |]. split; [reflexivity |].
  split; [reflexivity |]. exists rows, row. auto.
Qed.





(** ** A refresh *)

(** What a refresh that returns tells about the state it started in, and
    the state it leaves. *)
Lemma table_read_recent_Ret_inv t n s b s' :
  wf s -> table_read_recent t n s = Ret b s' ->
  alt_mutex_ s = false /\ rw_free (rw_lock_ s) /\
  exists rs err,
    read_records (refresh_rows n (db_ s)) = (rs, None) /\
    s' = refreshed t rs err s /\
    b = match table (db_ s), next_fault (db_ s) with
        | Some _, None => true
        | _, _ => false
        end /\
    (b = true -> err = "").
Proof.
  intros Hwf Hret.
  assert (Hm : alt_mutex_ s = false).
  { rewrite table_read_recent_eq, cb_save_start_eq in Hret.
    destruct (alt_mutex_ s); [discriminate Hret | reflexivity]. }
  assert (Hfree : rw_free (rw_lock_ s)).
  { destruct (rw_free_dec (rw_lock_ s)) as [Hfree | Hheld]; [exact Hfree |].
    destruct (table_read_recent_held t n s Hwf Hheld)
      as [Hb | [(e & s2 & Hb) | (s2 & Hb & _)]];
      rewrite Hb in Hret; discriminate Hret. }
  split; [exact Hm |]. split; [exact Hfree |].
  unfold refresh_rows. destruct (table (db_ s)) as [rows |] eqn:Htab.
  - destruct (read_records (delivered_rows n rows (db_ s))) as [rs [e |]] eqn:Hrs.
    + destruct (table_read_recent_throws t n rows rs e s Hwf Hm Htab Hrs)
        as (s2 & Hb & _).
      rewrite Hb in Hret. discriminate Hret.
    + rewrite (table_read_recent_completes t n rows rs s Hwf Hm Hfree Htab Hrs)
        in Hret.
      injection Hret as <- <-. eexists rs, _. split; [reflexivity |].
      split; [reflexivity |].
      destruct (next_fault (db_ s)); (split; [reflexivity |]);
        [rewrite bool_decide_eq_false_2 by discriminate; discriminate
        | reflexivity].
  - rewrite (table_read_recent_no_table t n s Hwf Hm Hfree Htab) in Hret.
    injection Hret as <- <-. eexists [], _.
    split; [reflexivity |]. split; [reflexivity |]. split; [reflexivity |].
    discriminate.
Qed.

(** X8 -- A refresh that returns has released what it took.  In the
    state it leaves, [alt_mutex_] is unlocked and [rw_lock_] is as it was;
    the calls on [rw_lock_] are one [write_lock] and one [write_unlock] by
    the calling thread; the active index has moved to the other slot and
    the class invariant holds.  When it returned [true] the error text is
    empty. *)
Theorem returning_refresh_releases_its_locks (t : tid) (n : Z)
    (s s' : SharedRWBuffer) (b : bool) :
  wf s -> table_read_recent t n s = Ret b s' ->
  alt_mutex_ s' = false /\ rw_lock_ s' = rw_lock_ s /\
  rw_calls s' = (rw_calls s ++ [(t, write_lock_call); (t, write_unlock_call)])%list /\
  curr_idx_ s' = 1 - curr_idx_ s /\ wf s' /\
  (b = true -> LastError s' = "").
Proof.
  intros Hwf Hret.
  destruct (table_read_recent_Ret_inv t n s b s' Hwf Hret)
    as (_ & _ & rs & err & _ & -> & _ & Herr).
  split; [reflexivity |]. split; [reflexivity |].
  split; [apply rw_calls_refreshed |].
  split; [rewrite curr_idx_refreshed; apply wf_alt_idx, Hwf |].
  split; [apply wf_refreshed, Hwf | exact Herr].
Qed.

(** X9 -- Refreshing twice loads the same.  When two refreshes with one
    window follow each other with no append in between and both return
    [true], the second one loads the records the first one loaded, and
    the active index is back where it was before the first. *)
Theorem second_refresh_loads_the_same (t1 t2 : tid) (n : Z)
    (s s1 s2 : SharedRWBuffer) :
  wf s ->
  table_read_recent t1 n s = Ret true s1 ->
  table_read_recent t2 n s1 = Ret true s2 ->
  get_recent_load s2 = get_recent_load s1 /\ curr_idx_ s2 = curr_idx_ s /\
  staging s2 = get_recent_load s1.
Proof.
  intros Hwf Hret1 Hret2.
  destruct (table_read_recent_Ret_inv t1 n s true s1 Hwf Hret1)
    as (_ & _ & rs1 & err1 & Hrs1 & -> & Hb1 & _).
  pose proof (wf_refreshed t1 rs1 err1 s Hwf) as Hwf1.
  destruct (table_read_recent_Ret_inv t2 n _ true s2 Hwf1 Hret2)
    as (_ & _ & rs2 & err2 & Hrs2 & -> & Hb2 & _).
  cbn [db_ refreshed] in Hrs2, Hb2.
  unfold refresh_rows, delivered_rows in Hrs1, Hrs2.
  cbn [table pop_fault] in Hrs2, Hb2.
  destruct (table (db_ s)) as [rows |]; [| discriminate Hb1].
  destruct (next_fault (db_ s)); [discriminate Hb1 |].
  destruct (next_fault (pop_fault (db_ s))); [discriminate Hb2 |].
  assert (Heq : rs2 = rs1) by congruence. subst rs2.
  rewrite !get_recent_load_refreshed by assumption.
  split; [reflexivity |].
  split.
  - rewrite !curr_idx_refreshed.
    rewrite (wf_alt_idx _ Hwf1), curr_idx_refreshed, (wf_alt_idx _ Hwf). lia.
  - clear Hrs1 Hrs2 Hret1 Hret2 Hwf1. open_state s Hwf; reflexivity.
Qed.

(** A refresh returns, or it ends with the active index where it was; in
    both cases the slot that was active when it started is untouched. *)
Lemma table_read_recent_outcomes t n s :
  wf s ->
  slot_of s (final_state (table_read_recent t n s)) = slot_of s s /\
  ((exists b s', table_read_recent t n s = Ret b s') \/
   curr_idx_ (final_state (table_read_recent t n s)) = curr_idx_ s).
Proof.
  intros Hwf. rewrite table_read_recent_eq, cb_save_start_eq.
  destruct (alt_mutex_ s) eqn:Hm; [split; [reflexivity | right; reflexivity] |].
  assert (Hend : forall rc s2,
    wf s2 -> alt_mutex_ s2 = true -> rw_lock_ s2 = rw_lock_ s ->
    curr_idx_ s2 = curr_idx_ s -> slot_of s s2 = slot_of s s ->
    alt_idx s2 = alt_idx s ->
    let o := match cb_save_end t s2 with
             | Ret _ s3 => Ret (rc =? 0) s3
             | Throws e s3 => Throws e s3
             | Blocks l s3 => Blocks l s3
             | Undefined u s3 => Undefined u s3
             end in
    slot_of s (final_state o) = slot_of s s /\
    ((exists b s', o = Ret b s') \/ curr_idx_ (final_state o) = curr_idx_ s)).
  { intros rc s2 Hwf2 Hm2 Hl2 Hc2 Hs2 Ha2. cbv zeta.
    destruct (rw_free_dec (rw_lock_ s2)) as [Hfree | Hheld].
    - rewrite (cb_save_end_free t s2 Hwf2 Hfree Hm2). cbn [final_state].
      split; [exact Hs2 | left; eauto].
    - rewrite (cb_save_end_held t s2 Hheld). cbn [final_state].
      split; [exact Hs2 | right; exact Hc2]. }
  destruct (table (db_ s)) as [rows |] eqn:Htab.
  - rewrite (exec_select_recent n rows) by (exact Htab || apply wf_begin_refresh, Hwf).
    cbv zeta. cbn [db_ set_recent_loaded_ set_alt_mutex_].
    destruct (next_fault (db_ s)) as [k |];
      match goal with
      | |- context [read_records ?x] => destruct (read_records x) as [rs [e |]]
      end;
      try (cbn [final_state]; split; [| right; reflexivity];
           clear Hend; open_state s Hwf; reflexivity);
      apply Hend; try reflexivity;
      clear Hend; open_state s Hwf; try reflexivity; split; cbn; auto.
  - rewrite exec_select_no_table by exact Htab.
    apply Hend; try reflexivity;
      clear Hend; open_state s Hwf; try reflexivity; split; cbn; auto.
Qed.

(** X10 -- A refresh never writes the slot it found active.  However
    [table_read_recent] ends -- it returns, throws out of a conversion, or
    waits on one of the two locks -- the slot that was the active one when
    it started holds the records it held. *)
Theorem refresh_leaves_the_slot_it_found_active (t : tid) (n : Z)
    (s : SharedRWBuffer) :
  wf s ->
  slot_of s (final_state (table_read_recent t n s)) = Some (get_recent_load s).
Proof.
  intros Hwf. destruct (table_read_recent_outcomes t n s Hwf) as [-> _].
  open_state s Hwf; reflexivity.
Qed.

(** A refresh started while a shared hold is outstanding. *)
Lemma table_read_recent_pinned t n s :
  wf s -> (0 < readers (rw_lock_ s))%nat ->
  (forall b s', table_read_recent t n s <> Ret b s') /\
  curr_idx_ (final_state (table_read_recent t n s)) = curr_idx_ s /\
  get_recent_load (final_state (table_read_recent t n s)) = get_recent_load s.
Proof.
  intros Hwf Hheld.
  assert (Hnot : forall b s', table_read_recent t n s <> Ret b s').
  { intros b s' Hret.
    destruct (table_read_recent_Ret_inv t n s b s' Hwf Hret) as (_ & [Hr _] & _).
    lia. }
  split; [exact Hnot |].
  destruct (table_read_recent_outcomes t n s Hwf) as [Hslot [(b & s' & Hret) | Hcur]];
    [exfalso; exact (Hnot b s' Hret) |].
  split; [exact Hcur |].
  unfold get_recent_load. rewrite Hcur.
  unfold slot_of in Hslot. rewrite Hslot. reflexivity.
Qed.

(** X11 -- An outstanding shared hold pins the active buffer.  While
    some Sampler holds [rw_lock_], no refresh returns, and however it ends
    the active index and the records of the active buffer are the
    same. *)
Theorem outstanding_hold_pins_active_buffer (t : tid) (n : Z)
    (s : SharedRWBuffer) :
  wf s -> (0 < readers (rw_lock_ s))%nat ->
  (forall b s', table_read_recent t n s <> Ret b s') /\
  curr_idx_ (final_state (table_read_recent t n s)) = curr_idx_ s /\
  get_recent_load (final_state (table_read_recent t n s)) = get_recent_load s.
Proof. exact (table_read_recent_pinned t n s). Qed.

(** X12 -- A conversion that throws leaves [alt_mutex_] locked for good.
    When a row that the SELECT of a refresh delivers does not convert,
    the exception leaves [table_read_recent] before [cb_save_end]: the
    active index and the active buffer are as before, and every later
    refresh, by any thread, waits on [alt_mutex_] without changing the
    state; so does every later [sample] that finds the active buffer
    empty. *)
Theorem throwing_refresh_keeps_alt_mutex_locked (t : tid) (n : Z)
    (rows : list Row) (rs : list Record_) (e : exn) (s : SharedRWBuffer) :
  wf s -> alt_mutex_ s = false -> table (db_ s) = Some rows ->
  read_records (delivered_rows n rows (db_ s)) = (rs, Some e) ->
  exists s', table_read_recent t n s = Throws e s' /\
    curr_idx_ s' = curr_idx_ s /\ get_recent_load s' = get_recent_load s /\
    (forall t' n', table_read_recent t' n' s' = Blocks on_alt_mutex s') /\
    (forall t' smp, get_recent_load s = [] ->
       sample t' smp s' = Blocks on_alt_mutex s').
Proof.
  intros Hwf Hm Htab Hrs.
  destruct (table_read_recent_throws t n rows rs e s Hwf Hm Htab Hrs)
    as (s' & Hthrow & Hm' & Hcur & Hload & _).
  exists s'. split; [exact Hthrow |]. split; [exact Hcur |]. split; [exact Hload |].
  assert (Hwait : forall t' n', table_read_recent t' n' s' = Blocks on_alt_mutex s').
  { intros t' n'. rewrite table_read_recent_eq, cb_save_start_eq, Hm'. reflexivity. }
  split; [exact Hwait |].
  intros t' smp Hempty. rewrite sample_empty by congruence.
  rewrite Hwait. reflexivity.
Qed.

(** ** What reads leave of the database *)

Local Abbreviation keeps_stored m := (@keeps_stored float _ m).

Lemma keeps_stored_ret {A} (a : A) : keeps_stored (ret a : M A).
Proof. intros s. reflexivity. Qed.

Lemma keeps_stored_gets {A} (f : SharedRWBuffer -> A) : keeps_stored (gets f).
Proof. intros s. reflexivity. Qed.

Lemma keeps_stored_throw {A} e : keeps_stored (throw e : M A).
Proof. intros s. reflexivity. Qed.

Lemma keeps_stored_block {A} l : keeps_stored (block l : M A).
Proof. intros s. reflexivity. Qed.

Lemma keeps_stored_undefined {A} u : keeps_stored (undefined_behaviour u : M A).
Proof. intros s. reflexivity. Qed.



Lemma keeps_stored_or_throw {A} (x : exn + A) : keeps_stored (or_throw x : M A).
Proof. destruct x; [apply keeps_stored_throw | apply keeps_stored_ret]. Qed.

Create HintDb stored.

Local Hint Resolve keeps_stored_ret keeps_stored_gets keeps_stored_throw
  keeps_stored_block keeps_stored_undefined keeps_stored_or_throw : stored.
















(** ** What a refresh loads *)

Lemma stoi_range text v : stoi text = inr v -> INT_MIN <= v <= INT_MAX.
Proof.
  unfold stoi. destruct (fst (scan_signed (skip_space text))) as [w |];
    [| discriminate].
  destruct ((INT_MIN <=? w) && (w <=? INT_MAX)) eqn:Hin; [| discriminate].
  intros Heq. injection Heq as <-.
  apply andb_prop in Hin as [Hlo Hhi].
  apply Z.leb_le in Hlo. apply Z.leb_le in Hhi. lia.
Qed.

Lemma int_as_uint64_to_uint64 v :
  INT_MIN <= v <= INT_MAX -> int_as_uint64 (to_uint64 v).
Proof.
  unfold INT_MIN, INT_MAX, int_as_uint64, to_uint64. intros Hv.
  destruct (Z.neg_nonneg_cases v) as [Hneg | Hpos].
  - right. replace (v mod 2 ^ 64) with (v + 2 ^ 64); [lia |].
    apply (Z.mod_unique v (2 ^ 64) (-1)); [left |]; lia.
  - left. rewrite Z.mod_small by lia. unfold INT_MAX. lia.
Qed.

Lemma read_record_through_int row r :
  read_record row = inr r ->
  through_int r /\ machine r = MACHINE row /\ content r = CONTENT row.
Proof.
  unfold read_record. intros Hread.
  destruct (stoi (TIME row)) as [| ts] eqn:Hts; [discriminate |].
  destruct (stoi (GAME_ID row)) as [| gid] eqn:Hgid; [discriminate |].
  destruct (stoi (SEQ row)) as [| sq] eqn:Hsq; [discriminate |].
  destruct (stof (PRI row)); [discriminate |].
  destruct (stof (REWARD row)); [discriminate |].
  injection Hread as <-. cbn [timestamp game_id seq machine content].
  split; [| split; reflexivity]. unfold through_int. cbn [timestamp game_id seq].
  split; [apply int_as_uint64_to_uint64, (stoi_range _ _ Hts) |].
  split; [apply int_as_uint64_to_uint64, (stoi_range _ _ Hgid) |].
  exact (stoi_range _ _ Hsq).
Qed.

Lemma select_recent_rows_subset n rows row :
  row ∈ select_recent_rows n rows -> row ∈ rows.
Proof.
  unfold select_recent_rows, limit_rows. intros Hin.
  assert (Hin' : row ∈ order_by_time_desc rows).
  { destruct (n <? 0); [exact Hin |].
    apply list_elem_of_lookup in Hin as [i Hi].
    apply lookup_take_Some in Hi as [Hi _].
    apply list_elem_of_lookup. eauto. }
  rewrite <- (order_by_time_desc_perm rows). exact Hin'.
Qed.

Lemma select_recent_rows_length n rows :
  (length (select_recent_rows n rows) <= length rows)%nat /\
  (0 <= n -> Z.of_nat (length (select_recent_rows n rows)) <= n).
Proof.
  unfold select_recent_rows, limit_rows.
  pose proof (Permutation_length (order_by_time_desc_perm rows)) as Hlen.
  destruct (n <? 0) eqn:Hneg.
  - apply Z.ltb_lt in Hneg. split; lia.
  - rewrite length_take. split; lia.
Qed.

Lemma refresh_rows_subset n db row :
  row ∈ refresh_rows n db -> row ∈ default [] (table db).
Proof.
  unfold refresh_rows, delivered_rows.
  destruct (table db) as [rows |]; [| intros Hin; exact Hin]. cbn [default from_option id].
  destruct (next_fault db) as [k |]; [| apply select_recent_rows_subset].
  intros Hin. apply (select_recent_rows_subset n).
  apply list_elem_of_lookup in Hin as [i Hi].
  apply lookup_take_Some in Hi as [Hi _].
  apply list_elem_of_lookup. eauto.
Qed.

Lemma refresh_rows_length n db :
  (length (refresh_rows n db) <= length (default [] (table db)))%nat /\
  (0 <= n -> Z.of_nat (length (refresh_rows n db)) <= n).
Proof.
  unfold refresh_rows, delivered_rows.
  destruct (table db) as [rows |]; [| cbn; split; lia].
  cbn [default from_option id].
  pose proof (select_recent_rows_length n rows) as [Hle Hn].
  destruct (next_fault db) as [k |]; [| split; assumption].
  rewrite length_take. split; [lia |]. intros Hpos. specialize (Hn Hpos). lia.
Qed.

(** X14 -- What a refresh loads went through [int].  Every record in the
    active buffer after a refresh that returned is the conversion of some
    row of the table: its timestamp and its game id are values of an
    [int] converted to [uint64_t] -- at most [INT_MAX], or at least
    [2^64 - 2^31] -- and its sequence number is an [int].  No more records
    are loaded than [max_num_records], when that is not negative, and no
    more than the table has rows. *)
Theorem loaded_records_went_through_int (t : tid) (n : Z)
    (s s' : SharedRWBuffer) (b : bool) :
  wf s -> table_read_recent t n s = Ret b s' ->
  Forall (fun r => through_int r /\
                   exists row, row ∈ default [] (table (db_ s)) /\
                               read_record row = inr r)
         (get_recent_load s') /\
  (length (get_recent_load s') <= length (default [] (table (db_ s))))%nat /\
  (0 <= n -> Z.of_nat (length (get_recent_load s')) <= n).
Proof.
  intros Hwf Hret.
  destruct (table_read_recent_Ret_inv t n s b s' Hwf Hret)
    as (_ & _ & rs & err & Hrs & -> & _ & _).
  rewrite get_recent_load_refreshed by exact Hwf.
  apply read_records_Forall2 in Hrs.
  pose proof (Forall2_length _ _ _ Hrs) as Hlen.
  pose proof (refresh_rows_length n (db_ s)) as [Hle Hn].
  split; [| split; [lia | intros Hpos; specialize (Hn Hpos); lia]].
  apply Forall_forall. intros r Hin.
  apply list_elem_of_lookup in Hin as [i Hi].
  destruct (Forall2_lookup_r _ _ _ _ _ Hrs Hi) as (row & Hrow & Hconv).
  split; [exact (proj1 (read_record_through_int row r Hconv)) |].
  exists row. split; [| exact Hconv].
  apply refresh_rows_subset with (n := n). apply list_elem_of_lookup. eauto.
Qed.




(** ** Text fields *)




(** ** Draws *)

(** A draw from a non-empty active buffer. *)
Lemma sample_nonempty_exact t smp s :
  get_recent_load s <> [] ->
  Z.of_nat (length (get_recent_load s)) <= 2 ^ 31 ->
  exists r,
    get_recent_load s
      !! Z.to_nat (fst (mt_next (rng_ smp)) mod Z.of_nat (length (get_recent_load s)))
    = Some r /\
    sample t smp s = Ret (r, {| rng_ := snd (mt_next (rng_ smp)) |}) s.
Proof.
  intros Hne Hsize. rewrite (sample_nonempty t smp s Hne). cbv zeta.
  unfold draw_index. destruct (mt_next (rng_ smp)) as [x g]. cbn [fst snd].
  set (size := Z.of_nat (length (get_recent_load s))) in *.
  assert (Hpos : 0 < size).
  { unfold size. destruct (get_recent_load s); [congruence | cbn [length]; lia]. }
  pose proof (Z.mod_pos_bound x size Hpos) as Hmod.
  unfold vector_at. cbv zeta.
  rewrite to_int_small by lia. rewrite to_uint64_small by lia.
  fold size. destruct (x mod size <? size) eqn:Hlt; [| apply Z.ltb_ge in Hlt; lia].
  destruct (lookup_lt_is_Some_2 (get_recent_load s) (Z.to_nat (x mod size)))
    as [r Hr]; [unfold size in Hmod; lia |].
  exists r. split; [exact Hr |].
  rewrite Hr. reflexivity.
Qed.

(** A draw that starts by a refresh which returns with records goes on as
    a draw from the buffer that refresh made active. *)
Lemma sample_after_refresh t smp s b s1 :
  get_recent_load s = [] -> table_read_recent t 1000 s = Ret b s1 ->
  get_recent_load s1 <> [] ->
  sample t smp s = sample t smp s1.
Proof.
  intros Hempty Hret Hne.
  rewrite (sample_empty t smp s Hempty), Hret, (sample_nonempty t smp s1 Hne).
  cbv zeta.
  destruct (get_recent_load s1) as [| r0 l]; [congruence |].
  reflexivity.
Qed.

(** X17 -- A draw from a non-empty buffer is a pure read.  When the
    active buffer holds records (no more than [2^31]), [sample] returns
    the record at index [rng_() % size] of it, advances the Sampler's
    engine by that one output, and leaves the object as it is: no
    statement is run, no lock is called, no buffer is written. *)
Theorem sample_reads_at_the_drawn_index (t : tid) (smp : Sampler)
    (s : SharedRWBuffer) :
  get_recent_load s <> [] ->
  Z.of_nat (length (get_recent_load s)) <= 2 ^ 31 ->
  exists r,
    get_recent_load s
      !! Z.to_nat (fst (mt_next (rng_ smp)) mod Z.of_nat (length (get_recent_load s)))
    = Some r /\
    sample t smp s = Ret (r, {| rng_ := snd (mt_next (rng_ smp)) |}) s.
Proof. exact (sample_nonempty_exact t smp s). Qed.

(** X18 -- An append is not seen before the next refresh.  [Insert]
    leaves both slots, the active index and the locks as they are, and on
    a non-empty active buffer a draw after the [Insert] returns the record
    the same draw returns before it. *)
Theorem insert_is_not_seen_before_refresh (t : tid) (smp : Sampler)
    (now_ms : Z) (r : Record_) (s : SharedRWBuffer) :
  get_recent_load s <> [] ->
  Z.of_nat (length (get_recent_load s)) <= 2 ^ 31 ->
  exists b s1 drawn smp',
    Insert now_ms r s = Ret b s1 /\
    recent_loaded_ s1 = recent_loaded_ s /\ curr_idx_ s1 = curr_idx_ s /\
    rw_lock_ s1 = rw_lock_ s /\ alt_mutex_ s1 = alt_mutex_ s /\
    sample t smp s = Ret (drawn, smp') s /\
    sample t smp s1 = Ret (drawn, smp') s1.
Proof.
  intros Hne Hsize.
  destruct (Insert_table now_ms r s) as (b & s1 & Hins & _).
  pose proof (Insert_frame now_ms r s) as (Hbufs & Hcur & Hlock).
  rewrite Hins in Hbufs, Hcur, Hlock. cbn [final_state] in Hbufs, Hcur, Hlock.
  assert (Hm : alt_mutex_ s1 = alt_mutex_ s).
  { rewrite Insert_eq in Hins.
    destruct (table (db_ s)); [| injection Hins as _ <-; reflexivity].
    destruct (row_of_record now_ms r); [| injection Hins as _ <-; reflexivity].
    destruct (bool_decide _); [injection Hins as _ <-; reflexivity |].
    destruct (next_fault (db_ s)); injection Hins as _ <-; reflexivity. }
  assert (Hload : get_recent_load s1 = get_recent_load s)
    by (unfold get_recent_load; rewrite Hbufs, Hcur; reflexivity).
  destruct (sample_nonempty_exact t smp s Hne Hsize) as (drawn & Hat & Hs).
  destruct (sample_nonempty_exact t smp s1) as (drawn1 & Hat1 & Hs1);
    [rewrite Hload; exact Hne | rewrite Hload; exact Hsize |].
  rewrite Hload in Hat1. assert (drawn1 = drawn) by congruence. subst drawn1.
  exists b, s1, drawn, {| rng_ := snd (mt_next (rng_ smp)) |}.
  repeat split; assumption.
Qed.

(** X19 -- The first draw loads the buffer.  When the active buffer is
    empty, nobody holds either lock (the Sampler's own shared hold has
    been released, as by the destructor of the object it was moved from),
    the table has rows that all convert and the SELECT does not fail,
    [sample] refreshes with the window 1000 and returns a record of the
    buffer it has made active: the conversions of the first 1000 rows in
    descending TIME text. *)
Theorem first_sample_loads_the_buffer (t : tid) (smp : Sampler)
    (rows : list Row) (s : SharedRWBuffer) :
  wf s -> get_recent_load s = [] ->
  alt_mutex_ s = false -> rw_free (rw_lock_ s) ->
  table (db_ s) = Some rows -> rows <> [] -> next_fault (db_ s) = None ->
  Forall (fun row => exists r, read_record row = inr r) rows ->
  exists drawn smp' s',
    sample t smp s = Ret (drawn, smp') s' /\ drawn ∈ get_recent_load s' /\
    table_read_recent t 1000 s = Ret true s' /\
    curr_idx_ s' = 1 - curr_idx_ s /\
    Forall2 (fun row r => read_record row = inr r)
      (take 1000 (order_by_time_desc rows)) (get_recent_load s').
Proof.
  intros Hwf Hempty Hm Hfree Htab Hrows Hfault Hconv.
  destruct (read_records_all (select_recent_rows 1000 rows)) as (rs & Hrs & Hall).
  { apply Forall_select_recent_rows. exact Hconv. }
  assert (Hdel : read_records (delivered_rows 1000 rows (db_ s)) = (rs, None))
    by (unfold delivered_rows; rewrite Hfault; exact Hrs).
  pose proof (table_read_recent_completes t 1000 rows rs s Hwf Hm Hfree Htab Hdel)
    as Hret.
  rewrite Hfault in Hret. rewrite bool_decide_eq_true_2 in Hret by reflexivity.
  set (s' := refreshed t rs "" s) in *.
  assert (Hload : get_recent_load s' = rs)
    by (apply get_recent_load_refreshed; exact Hwf).
  assert (Hlen : length rs = length (select_recent_rows 1000 rows))
    by (symmetry; exact (Forall2_length _ _ _ Hall)).
  assert (Hsel : select_recent_rows 1000 rows = take 1000 (order_by_time_desc rows))
    by reflexivity.
  assert (Hne : rs <> []).
  { intros ->. cbn [length] in Hlen. rewrite Hsel, length_take in Hlen.
    rewrite (Permutation_length (order_by_time_desc_perm rows)) in Hlen.
    destruct rows; [congruence | cbn [length] in Hlen; lia]. }
  assert (Hsize : Z.of_nat (length rs) <= 2 ^ 31).
  { rewrite Hlen, Hsel, length_take. lia. }
  destruct (sample_nonempty_exact t smp s') as (drawn & Hat & Hs);
    [rewrite Hload; exact Hne | rewrite Hload; exact Hsize |].
  exists drawn, {| rng_ := snd (mt_next (rng_ smp)) |}, s'.
  split.
  { rewrite (sample_after_refresh t smp s true s' Hempty Hret); [exact Hs |].
    rewrite Hload. exact Hne. }
  split; [apply list_elem_of_lookup; eauto |].
  split; [exact Hret |].
  split; [unfold s'; rewrite curr_idx_refreshed; apply wf_alt_idx, Hwf |].
  rewrite Hload, <- Hsel. exact Hall.
Qed.

(** ** Runs of the public interface *)

Lemma sample_pinned t smp s :
  wf s -> (0 < readers (rw_lock_ s))%nat -> get_recent_load s = [] ->
  get_recent_load (final_state (sample t smp s)) = [].
Proof.
  intros Hwf Hheld Hempty.
  destruct (table_read_recent_pinned t 1000 s Hwf Hheld) as (Hnot & _ & Hload).
  rewrite (sample_empty t smp s Hempty).
  destruct (table_read_recent t 1000 s) as [b s1 | e s1 | l s1 | u s1];
    [exfalso; exact (Hnot b s1 eq_refl) | | |];
    cbn [final_state] in *; congruence.
Qed.

Lemma public_call_keeps_empty s s' :
  public_call s s' -> wf s -> get_recent_load s = [] ->
  wf s' /\ get_recent_load s' = [].
Proof.
  intros Hcall Hwf Hempty.
  destruct Hcall as [now_ms r s | t now_ms s | t smp s Hheld | t smp s Hheld].
  - split; [apply keeps_wf_Insert, Hwf |].
    destruct (Insert_frame now_ms r s) as (Hbufs & Hcur & _).
    unfold get_recent_load in *. rewrite Hbufs, Hcur. exact Hempty.
  - split; [apply keeps_wf_GetSampler, Hwf |].
    destruct (GetSampler_frame true t now_ms s) as (Hbufs & Hcur).
    unfold get_recent_load in *. rewrite Hbufs, Hcur. exact Hempty.
  - split; [apply keeps_wf_sample, Hwf | apply sample_pinned; assumption].
  - split; [apply keeps_wf_read_shared_unlock, Hwf |].
    destruct (Sampler_dtor_frame t smp s) as (Hbufs & Hcur).
    unfold get_recent_load in *. rewrite Hbufs, Hcur. exact Hempty.
Qed.

(** X20 -- Through the public interface no draw ever returns.  Take an
    object the constructor returned and any run of [Insert],
    [GetSampler] (the Sampler constructed in place), [sample] and Sampler
    destructions, by any threads.  The active buffer is empty after the
    run, as it was at the start: the only code that fills it is the
    refresh inside [sample], and that refresh never gets the exclusive
    hold past the Sampler's own shared hold.  So a further [sample] on a
    live Sampler does not return either. *)
Theorem no_draw_returns_through_public_interface (db : sqlite3)
    (name : string) (verbose : bool) (s0 s : SharedRWBuffer) :
  SharedRWBuffer_ctor 0 db name verbose = Ret tt s0 ->
  public_run s0 s ->
  get_recent_load s = [] /\
  forall t smp, (0 < readers (rw_lock_ s))%nat ->
    forall a s', sample t smp s <> Ret a s'.
Proof.
  intros Hctor Hrun.
  assert (Hinv : wf s /\ get_recent_load s = []).
  { induction Hrun as [s | s s1 s2 _ IH Hcall].
    - destruct (SharedRWBuffer_ctor_returns db name verbose) as (db' & err & Heq).
      rewrite Heq in Hctor. injection Hctor as <-.
      split; [split; [reflexivity | left; reflexivity] | reflexivity].
    - destruct (IH Hctor) as [Hwf1 Hempty1].
      exact (public_call_keeps_empty s1 s2 Hcall Hwf1 Hempty1). }
  destruct Hinv as [Hwf Hempty]. split; [exact Hempty |].
  intros t smp Hheld. apply sample_empty_held_never_returns; [exact Hwf | | exact Hempty].
  intros [Hr _]. lia.
Qed.

End Properties.

(** * The properties on the scenarios *)

Lemma wf_fresh : wf fresh.
Proof. split; [vm_compute; reflexivity | left; vm_compute; reflexivity]. Qed.

Lemma wf_three_appended : wf three_appended.
Proof. split; [vm_compute; reflexivity | left; vm_compute; reflexivity]. Qed.

Lemma wf_window_two_loaded : wf window_two_loaded.
Proof. split; [vm_compute; reflexivity | right; vm_compute; reflexivity]. Qed.

Lemma refresh_writes_confined_to_staging_witness :
  wf window_two_loaded /\
  get_recent_load (final_state (cb_save (episode 400) window_two_loaded))
  = [episode 300; episode 200] /\
  staging (final_state (cb_save (episode 400) window_two_loaded))
  = [episode 400].
Proof.
  split; [exact wf_window_two_loaded |].
  destruct (refresh_writes_confined_to_staging 1%nat (episode 400)
              window_two_loaded wf_window_two_loaded)
    as (_ & (s2 & Hs2 & Hact & _ & Hstg) & _ & _).
  rewrite Hs2. cbn [final_state]. rewrite Hact, Hstg.
  split; vm_compute; reflexivity.
Defined.





Lemma wf_nine_then_ten : wf nine_then_ten.
Proof. split; [vm_compute; reflexivity | left; vm_compute; reflexivity]. Qed.

(** With window 1 on a table that got the stamps 9 and then 10, the
    refresh loads the record stamped 9: the text "9" is above the text
    "10".  The record appended last, which also has the larger stamp, is
    left out. *)
Lemma text_order_drops_latest_record :
  ~ loads_most_recent_newest_first 1%nat 1 nine_then_ten.
Proof.
  intros Hload.
  destruct (Hload (default [] (table (db_ nine_then_ten)))
              (after (table_read_recent 1%nat 1) nine_then_ten))
    as (_ & Hperm & _).
  - vm_compute. reflexivity.
  - vm_compute. reflexivity.
  - vm_compute in Hperm. apply Permutation_length_1 in Hperm. discriminate Hperm.
Qed.

Lemma three_rows_convert :
  Forall (fun row => exists r : Record_ Z, read_record row = inr r) three_rows.
Proof. apply Forall_converts. vm_compute. reflexivity. Qed.

Lemma three_rows_stamped : Forall (stamped 3) three_rows.
Proof.
  replace three_rows
    with [mkRow "100" "7" "host" "1" "0.0" "0.0" "moves";
          mkRow "200" "7" "host" "1" "0.0" "0.0" "moves";
          mkRow "300" "7" "host" "1" "0.0" "0.0" "moves"]
    by (vm_compute; reflexivity).
  repeat constructor;
    [exists 100 | exists 200 | exists 300]; repeat split; discriminate.
Qed.

Lemma refresh_loads_by_time_text_witness :
  wf three_appended /\
  table_read_recent 1%nat 2 three_appended = Ret true window_two_loaded /\
  get_recent_load window_two_loaded = [episode 300; episode 200] /\
  StronglySorted (fun a b => timestamp b <= timestamp a)
    (get_recent_load window_two_loaded).
Proof.
  split; [exact wf_three_appended |].
  destruct (refresh_loads_by_time_text 1%nat 2 three_appended three_rows)
    as (s' & sorted & Hret & _ & _ & _ & _ & Hnum).
  - exact wf_three_appended.
  - vm_compute. reflexivity.
  - split; vm_compute; reflexivity.
  - vm_compute. reflexivity.
  - vm_compute. reflexivity.
  - exact three_rows_convert.
  - assert (Hs' : window_two_loaded = s')
      by (unfold window_two_loaded, after; rewrite Hret; reflexivity).
    rewrite Hs'. split; [exact Hret |].
    split; [rewrite <- Hs'; vm_compute; reflexivity |].
    exact (Hnum 3%nat three_rows_stamped).
Defined.





Lemma sampler_ctor_at_instant_a :
  Sampler_ctor 1%nat instant_a fresh = Ret (sampler_at instant_a) fresh_sampled.
Proof. vm_compute. reflexivity. Qed.

Lemma sampler_ctor_at_instant_b :
  Sampler_ctor 2%nat instant_b fresh_sampled
  = Ret (sampler_at instant_b) (after (Sampler_ctor 2%nat instant_b) fresh_sampled).
Proof. vm_compute. reflexivity. Qed.

(** Two Samplers constructed 666 milliseconds apart, within one second,
    by two threads: no run of buffer sizes tells their draws apart. *)
Lemma samplers_of_one_second_are_not_told_apart :
  ~ samplers_draw_differently 1%nat 2%nat instant_a instant_b fresh.
Proof.
  intros Hdiff.
  destruct (Hdiff _ _ _ _ sampler_ctor_at_instant_a sampler_ctor_at_instant_b)
    as [sizes Hneq].
  apply Hneq. replace (sampler_at instant_b) with (sampler_at instant_a);
    [reflexivity |].
  unfold sampler_at. f_equal.
Qed.

Lemma samplers_of_one_second_draw_alike_witness :
  time_NULL instant_a = time_NULL instant_b /\
  index_sequence (sampler_at instant_a) [1000; 1000; 3]
  = index_sequence (sampler_at instant_b) [1000; 1000; 3].
Proof.
  assert (Hsec : time_NULL instant_a = time_NULL instant_b)
    by (vm_compute; reflexivity).
  split; [exact Hsec |].
  apply (samplers_of_one_second_draw_alike 1%nat 2%nat instant_a instant_b
           fresh fresh_sampled fresh_sampled
           (after (Sampler_ctor 2%nat instant_b) fresh_sampled)
           (sampler_at instant_a) (sampler_at instant_b) Hsec
           sampler_ctor_at_instant_a sampler_ctor_at_instant_b).
Defined.

Lemma wf_fresh_sampled : wf fresh_sampled.
Proof. split; [vm_compute; reflexivity | left; vm_compute; reflexivity]. Qed.

Lemma wf_fresh_moved : wf fresh_moved.
Proof. split; [vm_compute; reflexivity | left; vm_compute; reflexivity]. Qed.

Lemma sample_on_empty_store_witness :
  (wf fresh_moved /\ get_recent_load fresh_moved = [] /\
   rw_free (rw_lock_ fresh_moved) /\
   exists s', sample 1%nat (sampler_at instant_a) fresh_moved
              = Undefined modulo_by_zero s') /\
  (wf fresh_sampled /\ get_recent_load fresh_sampled = [] /\
   ~ rw_free (rw_lock_ fresh_sampled) /\
   exists s', sample 1%nat (sampler_at instant_a) fresh_sampled
              = Blocks on_rw_lock_exclusive s').
Proof.
  assert (Hfree : rw_free (rw_lock_ fresh_moved))
    by (split; vm_compute; reflexivity).
  assert (Hheld : ~ rw_free (rw_lock_ fresh_sampled)).
  { intros [Hr _]. vm_compute in Hr. discriminate Hr. }
  split.
  - split; [exact wf_fresh_moved |]. split; [vm_compute; reflexivity |].
    split; [exact Hfree |].
    destruct (sample_on_empty_store 1%nat (sampler_at instant_a) fresh_moved)
      as [Hmod _].
    + exact wf_fresh_moved.
    + vm_compute. reflexivity.
    + vm_compute. reflexivity.
    + vm_compute. reflexivity.
    + destruct (Hmod Hfree) as (s' & Hs' & _). exists s'. exact Hs'.
  - split; [exact wf_fresh_sampled |]. split; [vm_compute; reflexivity |].
    split; [exact Hheld |].
    destruct (sample_on_empty_store 1%nat (sampler_at instant_a) fresh_sampled)
      as [_ Hwait].
    + exact wf_fresh_sampled.
    + vm_compute. reflexivity.
    + vm_compute. reflexivity.
    + vm_compute. reflexivity.
    + exact (Hwait Hheld).
Defined.

Lemma sample_attempts_exclusive_while_shared_witness :
  wf fresh /\
  GetSampler true 1%nat instant_a fresh = Ret (sampler_at instant_a) fresh_sampled /\
  exists s2,
    sample 1%nat (sampler_at instant_a) fresh_sampled
    = Blocks on_rw_lock_exclusive s2 /\
    (0 < readers (rw_lock_ s2))%nat /\
    exclusive_attempt_while_shared (rw_calls s2).
Proof.
  split; [exact wf_fresh |].
  split; [exact sampler_ctor_at_instant_a |].
  apply (sample_attempts_exclusive_while_shared 1%nat instant_a fresh
           fresh_sampled (sampler_at instant_a) []).
  - exact wf_fresh.
  - vm_compute. reflexivity.
  - vm_compute. reflexivity.
  - vm_compute. reflexivity.
  - vm_compute. constructor.
  - exact sampler_ctor_at_instant_a.
Defined.

Lemma moved_sampler_releases_twice_witness :
  rw_free (rw_lock_ fresh) /\
  exists s',
    (a <- GetSampler true 1%nat instant_a;; b <- Sampler_move a;;
     Sampler_dtor 1%nat b;;; Sampler_dtor 1%nat a) fresh
    = Undefined unlock_of_lock_not_held s' /\
    count_call read_shared_lock_call (rw_calls s') = 1%nat /\
    count_call read_shared_unlock_call (rw_calls s') = 2%nat.
Proof.
  assert (Hfree : rw_free (rw_lock_ fresh)) by (split; vm_compute; reflexivity).
  split; [exact Hfree |].
  destruct (moved_sampler_releases_twice 1%nat instant_a fresh Hfree)
    as ((s' & Hrun & Hlock & Hunlock) & _).
  exists s'. split; [exact Hrun |]. split.
  - rewrite Hlock. vm_compute. reflexivity.
  - rewrite Hunlock. vm_compute. reflexivity.
Defined.

(** * The further properties on the scenarios *)

Lemma constructor_throws_only_when_open_fails_witness :
  exists s : SharedRWBuffer Z,
    SharedRWBuffer_ctor 14 empty_db "T" false = Throws range_error s /\
    db_ s = empty_db.
Proof.
  destruct (constructor_throws_only_when_open_fails (float := Z) 14 empty_db "T"
              false) as [Hthrow _].
  apply Hthrow. discriminate.
Defined.









Lemma refresh_of_three_appended :
  table_read_recent 1%nat 2 three_appended = Ret true window_two_loaded.
Proof. vm_compute. reflexivity. Qed.

Lemma returning_refresh_releases_its_locks_witness :
  wf three_appended /\
  table_read_recent 1%nat 2 three_appended = Ret true window_two_loaded /\
  alt_mutex_ window_two_loaded = false /\
  rw_lock_ window_two_loaded = rw_lock_ three_appended /\
  curr_idx_ window_two_loaded = 1 /\ LastError window_two_loaded = "".
Proof.
  split; [exact wf_three_appended |].
  split; [exact refresh_of_three_appended |].
  destruct (returning_refresh_releases_its_locks 1%nat 2 three_appended
              window_two_loaded true wf_three_appended refresh_of_three_appended)
    as (Hm & Hlock & _ & Hcur & _ & Herr).
  split; [exact Hm |]. split; [exact Hlock |].
  split; [rewrite Hcur; vm_compute; reflexivity | exact (Herr eq_refl)].
Defined.

Lemma second_refresh_of_three_appended :
  table_read_recent 2%nat 2 window_two_loaded
  = Ret true (after (table_read_recent 2%nat 2) window_two_loaded).
Proof. vm_compute. reflexivity. Qed.

Lemma second_refresh_loads_the_same_witness :
  wf three_appended /\
  get_recent_load (after (table_read_recent 2%nat 2) window_two_loaded)
  = [episode 300; episode 200] /\
  curr_idx_ (after (table_read_recent 2%nat 2) window_two_loaded) = 0.
Proof.
  split; [exact wf_three_appended |].
  destruct (second_refresh_loads_the_same 1%nat 2%nat 2 three_appended
              window_two_loaded (after (table_read_recent 2%nat 2) window_two_loaded)
              wf_three_appended refresh_of_three_appended
              second_refresh_of_three_appended)
    as (Hload & Hcur & _).
  split.
  - rewrite Hload. vm_compute. reflexivity.
  - rewrite Hcur. vm_compute. reflexivity.
Defined.

Lemma refresh_leaves_the_slot_it_found_active_witness :
  wf window_two_loaded /\
  slot_of window_two_loaded
    (final_state (table_read_recent 2%nat 1000 window_two_loaded))
  = Some [episode 300; episode 200].
Proof.
  split; [exact wf_window_two_loaded |].
  rewrite (refresh_leaves_the_slot_it_found_active 2%nat 1000 window_two_loaded
             wf_window_two_loaded).
  vm_compute. reflexivity.
Defined.

Lemma wf_window_two_sampled : wf window_two_sampled.
Proof. split; [vm_compute; reflexivity | right; vm_compute; reflexivity]. Qed.

Lemma outstanding_hold_pins_active_buffer_witness :
  wf window_two_sampled /\ readers (rw_lock_ window_two_sampled) = 1%nat /\
  get_recent_load (final_state (table_read_recent 1%nat 1000 window_two_sampled))
  = [episode 300; episode 200].
Proof.
  split; [exact wf_window_two_sampled |].
  assert (Hheld : readers (rw_lock_ window_two_sampled) = 1%nat)
    by (vm_compute; reflexivity).
  split; [exact Hheld |].
  destruct (outstanding_hold_pins_active_buffer 1%nat 1000 window_two_sampled
              wf_window_two_sampled) as (_ & _ & Hload).
  - rewrite Hheld. constructor.
  - rewrite Hload. vm_compute. reflexivity.
Defined.

Lemma wf_clock_stamped : wf clock_stamped.
Proof. split; [vm_compute; reflexivity | left; vm_compute; reflexivity]. Qed.

Lemma throwing_refresh_keeps_alt_mutex_locked_witness :
  wf clock_stamped /\
  exists s',
    table_read_recent 1%nat 1000 clock_stamped = Throws out_of_range s' /\
    table_read_recent 2%nat 1000 s' = Blocks on_alt_mutex s' /\
    sample 2%nat (sampler_at instant_a) s' = Blocks on_alt_mutex s'.
Proof.
  split; [exact wf_clock_stamped |].
  destruct (throwing_refresh_keeps_alt_mutex_locked 1%nat 1000
              (default [] (table (db_ clock_stamped))) [] out_of_range
              clock_stamped wf_clock_stamped)
    as (s' & Hthrow & _ & _ & Hwait & Hsample).
  - vm_compute. reflexivity.
  - vm_compute. reflexivity.
  - vm_compute. reflexivity.
  - exists s'. split; [exact Hthrow |]. split; [apply Hwait |].
    apply Hsample. vm_compute. reflexivity.
Defined.


Lemma loaded_records_went_through_int_witness :
  wf three_appended /\
  table_read_recent 1%nat 2 three_appended = Ret true window_two_loaded /\
  Forall through_int (get_recent_load window_two_loaded) /\
  (length (get_recent_load window_two_loaded) <= 3)%nat.
Proof.
  split; [exact wf_three_appended |].
  split; [exact refresh_of_three_appended |].
  destruct (loaded_records_went_through_int 1%nat 2 three_appended
              window_two_loaded true wf_three_appended refresh_of_three_appended)
    as (Hall & Hlen & _).
  split.
  - apply (Forall_impl _ _ _ Hall). intros r [Hr _]. exact Hr.
  - exact Hlen.
Defined.




Lemma window_two_loaded_holds_two :
  get_recent_load window_two_loaded = [episode 300; episode 200].
Proof. vm_compute. reflexivity. Qed.

Lemma sample_reads_at_the_drawn_index_witness :
  get_recent_load window_two_loaded = [episode 300; episode 200] /\
  exists r smp',
    sample 1%nat (sampler_at instant_a) window_two_loaded
    = Ret (r, smp') window_two_loaded /\
    r ∈ [episode 300; episode 200].
Proof.
  split; [exact window_two_loaded_holds_two |].
  destruct (sample_reads_at_the_drawn_index 1%nat (sampler_at instant_a)
              window_two_loaded) as (r & Hat & Hs).
  - rewrite window_two_loaded_holds_two. discriminate.
  - rewrite window_two_loaded_holds_two. vm_compute. discriminate.
  - exists r, {| rng_ := snd (mt_next (rng_ (sampler_at instant_a))) |}.
    split; [exact Hs |].
    rewrite <- window_two_loaded_holds_two. apply list_elem_of_lookup. eauto.
Defined.

Lemma insert_is_not_seen_before_refresh_witness :
  get_recent_load window_two_loaded = [episode 300; episode 200] /\
  exists b s1 drawn smp',
    Insert 5 (episode 400) window_two_loaded = Ret b s1 /\
    get_recent_load s1 = [episode 300; episode 200] /\
    sample 1%nat (sampler_at instant_a) window_two_loaded
    = Ret (drawn, smp') window_two_loaded /\
    sample 1%nat (sampler_at instant_a) s1 = Ret (drawn, smp') s1.
Proof.
  split; [exact window_two_loaded_holds_two |].
  destruct (insert_is_not_seen_before_refresh 1%nat (sampler_at instant_a) 5
              (episode 400) window_two_loaded)
    as (b & s1 & drawn & smp' & Hins & Hbufs & Hcur & _ & _ & Hs & Hs1).
  - rewrite window_two_loaded_holds_two. discriminate.
  - rewrite window_two_loaded_holds_two. vm_compute. discriminate.
  - exists b, s1, drawn, smp'. split; [exact Hins |].
    split; [| split; assumption].
    unfold get_recent_load. rewrite Hbufs, Hcur.
    exact window_two_loaded_holds_two.
Defined.

Lemma first_sample_loads_the_buffer_witness :
  wf three_appended /\ get_recent_load three_appended = [] /\
  rw_free (rw_lock_ three_appended) /\
  exists drawn smp' s',
    sample 1%nat (sampler_at instant_a) three_appended = Ret (drawn, smp') s' /\
    drawn ∈ get_recent_load s' /\ curr_idx_ s' = 1.
Proof.
  assert (Hfree : rw_free (rw_lock_ three_appended))
    by (split; vm_compute; reflexivity).
  split; [exact wf_three_appended |]. split; [vm_compute; reflexivity |].
  split; [exact Hfree |].
  destruct (first_sample_loads_the_buffer 1%nat (sampler_at instant_a) three_rows
              three_appended wf_three_appended)
    as (drawn & smp' & s' & Hs & Hin & _ & Hcur & _).
  - vm_compute. reflexivity.
  - vm_compute. reflexivity.
  - exact Hfree.
  - vm_compute. reflexivity.
  - vm_compute. discriminate.
  - vm_compute. reflexivity.
  - exact three_rows_convert.
  - exists drawn, smp', s'. split; [exact Hs |]. split; [exact Hin |].
    rewrite Hcur. vm_compute. reflexivity.
Defined.

Lemma constructor_returns_fresh :
  SharedRWBuffer_ctor 0 empty_db "T" false = Ret tt fresh.
Proof. vm_compute. reflexivity. Qed.

Lemma no_draw_returns_through_public_interface_witness :
  SharedRWBuffer_ctor 0 empty_db "T" false = Ret tt fresh /\
  public_run fresh
    (after (GetSampler true 1%nat instant_a) (after (Insert 5 (episode 100)) fresh)) /\
  forall a s',
    sample 1%nat (sampler_at instant_a)
      (after (GetSampler true 1%nat instant_a) (after (Insert 5 (episode 100)) fresh))
    <> Ret a s'.
Proof.
  split; [exact constructor_returns_fresh |].
  assert (Hrun : public_run fresh
            (after (GetSampler true 1%nat instant_a)
               (after (Insert 5 (episode 100)) fresh))).
  { eapply run_call; [eapply run_call; [apply run_done |] |].
    - exact (call_Insert 5 (episode 100) fresh).
    - exact (call_GetSampler 1%nat instant_a (after (Insert 5 (episode 100)) fresh)). }
  split; [exact Hrun |].
  destruct (no_draw_returns_through_public_interface empty_db "T" false fresh _
              constructor_returns_fresh Hrun) as [_ Hnever].
  apply Hnever. vm_compute. constructor.
Defined.
